(** * make_feed.py: podcast listing page to RSS feed

    A shallow embedding of [make_feed.py] and of the library behaviour it
    relies on (requests' [Response.ok], BeautifulSoup's [find_all], [find],
    [get] and [.string], CPython's [datetime.strptime], attrs' validators and
    feedgen's feed and entry objects), followed by the properties of the
    pipeline.

    Python strings are modelled by [string]: a sequence of code points below
    256.  In that range the decimal digits matched by the regular expression
    class [\d] are exactly '0'..'9'. *)

From Stdlib Require Import String Ascii List ZArith Lia Bool.
From Stdlib Require Import Decimal DecimalString DecimalPos DecimalZ.
Import ListNotations.

Open Scope string_scope.
Open Scope Z_scope.

(** ** Python exceptions and results *)

Module Py.

(** The exceptions the program can raise.  None of them is caught in
    [make_feed.py]. *)
Inductive exn : Type :=
| AttributeError   (* attribute access on [None] *)
| TypeError        (* an attrs [instance_of] validator rejected a value *)
| ValueError       (* [strptime] or [int] rejected a string *)
| OSError.         (* the feed file could not be written *)

Inductive result (A : Type) : Type :=
| Return (a : A)
| Raise (e : exn).
Arguments Return {A} a.
Arguments Raise {A} e.

Definition bind {A B} (r : result A) (k : A -> result B) : result B :=
  match r with
  | Return a => k a
  | Raise e => Raise e
  end.

(** [x.attr] where [x] may be [None]. *)
Definition deref {A} (o : option A) : result A :=
  match o with
  | Some a => Return a
  | None => Raise AttributeError
  end.

Definition raised {A} (r : result A) : Prop := exists e, r = Raise e.

(** [str.isspace] on one character, for code points below 256. *)
Definition isspace (c : ascii) : bool :=
  let n := N_of_ascii c in
  ((9 <=? n) && (n <=? 13) || (28 <=? n) && (n <=? 32)
   || (n =? 133) || (n =? 160))%N.

Fixpoint lstrip (s : string) : string :=
  match s with
  | String c s' => if isspace c then lstrip s' else s
  | EmptyString => EmptyString
  end.

Fixpoint rstrip (s : string) : string :=
  match s with
  | String c s' =>
      match rstrip s' with
      | EmptyString => if isspace c then EmptyString else String c EmptyString
      | r => String c r
      end
  | EmptyString => EmptyString
  end.

(** [s.strip()] *)
Definition strip (s : string) : string := rstrip (lstrip s).

Definition isdigit (c : ascii) : bool :=
  let n := N_of_ascii c in ((48 <=? n) && (n <=? 57))%N.

Definition digit_value (c : ascii) : Z := Z.of_N (N_of_ascii c) - 48.

Fixpoint int_digits (acc : Z) (s : string) : option Z :=
  match s with
  | EmptyString => Some acc
  | String c s' =>
      if isdigit c then int_digits (10 * acc + digit_value c) s' else None
  end.

(** [int(s)] for an unsigned decimal literal: surrounding white space is
    ignored, at least one digit is required. *)
Definition int (s : string) : result Z :=
  match strip s with
  | EmptyString => Raise ValueError
  | t => match int_digits 0 t with
         | Some z => Return z
         | None => Raise ValueError
         end
  end.

(** [str(n)] for an integer. *)
Definition str_of_int (z : Z) : string := NilZero.string_of_int (Z.to_int z).

End Py.

Export Py.

Declare Scope py_scope.
Notation "x <- c1 ;; c2" := (Py.bind c1 (fun x => c2))
  (at level 61, c1 at next level, right associativity) : py_scope.
Open Scope py_scope.

(** ** BeautifulSoup documents *)

Module Bs4.

(** An attribute value: a string, or the list of values of a multi-valued
    attribute such as [class]. *)
Inductive attr_value : Type :=
| AttrStr (s : string)
| AttrList (l : list string).

(** A node of the parsed document.  [NavigableString] covers text and the
    other string nodes; the object returned by [BeautifulSoup(...)] is
    itself a [Tag] (named "[document]"). *)
#[warnings="-register-all"]
Inductive PageElement : Type :=
| NavigableString (s : string)
| Tag (name : string) (attrs : list (string * attr_value))
      (contents : list PageElement).

Definition name_of (e : PageElement) : option string :=
  match e with
  | Tag n _ _ => Some n
  | NavigableString _ => None
  end.

Definition attrs_of (e : PageElement) : list (string * attr_value) :=
  match e with
  | Tag _ a _ => a
  | NavigableString _ => []
  end.

Fixpoint lookup (key : string) (d : list (string * attr_value))
  : option attr_value :=
  match d with
  | [] => None
  | (k, v) :: d' => if String.eqb k key then Some v else lookup key d'
  end.

(** [tag.get(key)]: the attribute value, or [None]. *)
Definition get (e : PageElement) (key : string) : option attr_value :=
  lookup key (attrs_of e).

(** [tag.descendants]: every node below [e], in document order. *)
Fixpoint descendants (e : PageElement) : list PageElement :=
  match e with
  | NavigableString _ => []
  | Tag _ _ cs => flat_map (fun c => c :: descendants c) cs
  end.

(** [tag.string]: defined when the tag has exactly one child, which is a
    string or a tag that itself has a [.string]. *)
Fixpoint dot_string (e : PageElement) : option string :=
  match e with
  | NavigableString s => Some s
  | Tag _ _ [c] => dot_string c
  | Tag _ _ _ => None
  end.

Fixpoint join (sep : string) (l : list string) : string :=
  match l with
  | [] => ""
  | [x] => x
  | x :: l' => x ++ sep ++ join sep l'
  end.

(** Matching one attribute value against a wanted string: a list matches
    when one of its items is the wanted string, or when the items joined by
    spaces are. *)
Definition matches_value (v : option attr_value) (wanted : string) : bool :=
  match v with
  | None => false
  | Some (AttrStr s) => String.eqb s wanted
  | Some (AttrList l) =>
      existsb (fun item => String.eqb item wanted) l
      || String.eqb (join " " l) wanted
  end.

Definition has_class (cls : string) (e : PageElement) : bool :=
  matches_value (get e "class") cls.

Definition has_name (n : string) (e : PageElement) : bool :=
  match name_of e with
  | Some m => String.eqb m n
  | None => false
  end.

(** [tag.find_all(name)] *)
Definition find_all (e : PageElement) (n : string) : list PageElement :=
  filter (has_name n) (descendants e).

(** [tag.find_all(name, class_=cls)] *)
Definition find_all_class (e : PageElement) (n cls : string)
  : list PageElement :=
  filter (fun d => has_name n d && has_class cls d) (descendants e).

(** [tag.find(name, class_=cls)]: the first result of [find_all], or
    [None]. *)
Definition find (e : PageElement) (n cls : string) : option PageElement :=
  match find_all_class e n cls with
  | [] => None
  | r :: _ => Some r
  end.

End Bs4.

Export Bs4.

(** ** [datetime] and [datetime.strptime(s, '%m.%d.%Y')] *)

Module Datetime.

Inductive tzinfo : Type := utc.

Record datetime : Type := mkDatetime {
  year : Z; month : Z; day : Z;
  hour : Z; minute : Z; second : Z; microsecond : Z;
  tz : option tzinfo
}.

(** [dt.replace(tzinfo=t)] *)
Definition replace_tzinfo (dt : datetime) (t : tzinfo) : datetime :=
  mkDatetime (year dt) (month dt) (day dt) (hour dt) (minute dt)
    (second dt) (microsecond dt) (Some t).

Definition is_leap (y : Z) : bool :=
  (y mod 4 =? 0) && (negb (y mod 100 =? 0) || (y mod 400 =? 0)).

Definition days_in_month (y m : Z) : Z :=
  if m =? 2 then (if is_leap y then 29 else 28)
  else if (m =? 4) || (m =? 6) || (m =? 9) || (m =? 11) then 30
  else 31.

(** The range checks of the [date(year, month, day)] constructor. *)
Definition valid_date (y m d : Z) : bool :=
  (1 <=? y) && (y <=? 9999) && (1 <=? m) && (m <=? 12)
  && (1 <=? d) && (d <=? days_in_month y m).

(** *** The regular expression compiled from the format

    [_strptime] turns ['%m.%d.%Y'] into
<<
    (?P<m>1[0-2]|0[1-9]|[1-9])\.(?P<d>3[0-1]|[1-2]\d|0[1-9]|[1-9]| [1-9])\.(?P<Y>\d\d\d\d)
>>
    and applies it with [re.match]: anchored at the start, alternatives
    tried from left to right with backtracking.  A group is a list of
    alternatives, an alternative a sequence of character classes. *)

Definition char_class : Type := ascii -> bool.

Definition range (lo hi : ascii) : char_class :=
  fun c => ((N_of_ascii lo <=? N_of_ascii c)
            && (N_of_ascii c <=? N_of_ascii hi))%N.

Definition lit (a : ascii) : char_class := fun c => Ascii.eqb c a.

Definition digit : char_class := Py.isdigit.

Definition group_m : list (list char_class) :=
  [ [lit "1"; range "0" "2"]; [lit "0"; range "1" "9"]; [range "1" "9"] ].

Definition group_d : list (list char_class) :=
  [ [lit "3"; range "0" "1"]; [range "1" "2"; digit];
    [lit "0"; range "1" "9"]; [range "1" "9"]; [lit " "; range "1" "9"] ].

Definition group_Y : list (list char_class) := [ [digit; digit; digit; digit] ].

(** Match a sequence of classes at the start of [s]: the matched text and
    what follows it. *)
Fixpoint match_seq (p : list char_class) (s : string)
  : option (string * string) :=
  match p with
  | [] => Some (EmptyString, s)
  | cl :: p' =>
      match s with
      | String c s' =>
          if cl c then
            match match_seq p' s' with
            | Some (m, rest) => Some (String c m, rest)
            | None => None
            end
          else None
      | EmptyString => None
      end
  end.

(** Match a group followed by the continuation [k]; when the continuation
    fails the next alternative is tried. *)
Fixpoint match_group {A} (alts : list (list char_class)) (s : string)
  (k : string -> string -> option A) : option A :=
  match alts with
  | [] => None
  | p :: alts' =>
      match match_seq p s with
      | Some (m, rest) =>
          match k m rest with
          | Some r => Some r
          | None => match_group alts' s k
          end
      | None => match_group alts' s k
      end
  end.

Definition match_dot {A} (s : string) (k : string -> option A) : option A :=
  match s with
  | String c s' => if lit "." c then k s' else None
  | EmptyString => None
  end.

(** [format_regex.match(data_string)]: the three groups and the text left
    after the match. *)
Definition format_regex_match (s : string)
  : option (string * string * string * string) :=
  match_group group_m s (fun m r1 =>
  match_dot r1 (fun r2 =>
  match_group group_d r2 (fun d r3 =>
  match_dot r3 (fun r4 =>
  match_group group_Y r4 (fun y r5 =>
  Some (m, d, y, r5)))))).

(** [datetime.strptime(data_string, '%m.%d.%Y')] *)
Definition strptime (data_string : string) : result datetime :=
  match format_regex_match data_string with
  | None => Raise ValueError          (* does not match format *)
  | Some (m, d, y, rest) =>
      match rest with
      | String _ _ => Raise ValueError  (* unconverted data remains *)
      | EmptyString =>
          yv <- Py.int y ;;
          mv <- Py.int m ;;
          dv <- Py.int d ;;
          if valid_date yv mv dv
          then Return (mkDatetime yv mv dv 0 0 0 0 None)
          else Raise ValueError        (* out of range for the calendar *)
      end
  end.

End Datetime.

Export Datetime.

(** ** requests: the response object *)

Module Requests.

(** The response to the page fetch.  [document] is the tree that
    [BeautifulSoup(resp.text, "html.parser")] builds from the body. *)
Record Response : Type := mkResponse {
  status_code : Z;
  reason : string;
  document : PageElement
}.

(** [Response.raise_for_status] raises [HTTPError] for the client error
    (4xx) and server error (5xx) classes. *)
Definition http_error (r : Response) : bool :=
  ((400 <=? status_code r) && (status_code r <? 500))
  || ((500 <=? status_code r) && (status_code r <? 600)).

(** [Response.ok]: [raise_for_status] does not raise. *)
Definition ok (r : Response) : bool := negb (http_error r).

End Requests.

Export Requests.

(** ** feedgen: feed and entry objects *)

Module Feedgen.

Record link : Type := mkLink { href : string; rel : string }.

Record FeedEntry : Type := mkFeedEntry {
  fe_id : option string;
  fe_title : option string;
  fe_link : list link;
  fe_author : list string;
  fe_content : option string;
  fe_updated : option Z;
  fe_published : option datetime
}.

(** [FeedEntry()]: the constructor stamps the entry with the current date
    and time, the instant [t]; every other field is empty.  Each field the
    program sets replaces what is here. *)
Definition new_entry (t : Z) : FeedEntry :=
  mkFeedEntry None None [] [] None (Some t) None.

Record FeedGenerator : Type := mkFeedGenerator {
  fg_id : option string;
  fg_title : option string;
  fg_link : list link;
  fg_logo : option string;
  fg_language : option string;
  fg_description : option string;
  fg_docs : option string;
  fg_author : option (list string);
  fg_updated : Z;          (* atom:updated, set by the constructor *)
  fg_lastBuildDate : Z;    (* rss:lastBuildDate, set by the constructor *)
  fg_entries : list FeedEntry
}.

Inductive order : Type := prepend | append.

(** The feed with its list of entries replaced. *)
Definition with_entries (fg : FeedGenerator) (es : list FeedEntry)
  : FeedGenerator :=
  mkFeedGenerator (fg_id fg) (fg_title fg) (fg_link fg) (fg_logo fg)
    (fg_language fg) (fg_description fg) (fg_docs fg) (fg_author fg)
    (fg_updated fg) (fg_lastBuildDate fg) es.

(** The list update of [fg.add_entry(order=o)]: the entry [e] is put in
    the list of the feed; the entry object is given back as its position in
    the list. *)
Definition put_entry (fg : FeedGenerator) (e : FeedEntry) (o : order)
  : FeedGenerator * nat :=
  match o with
  | prepend => (with_entries fg (e :: fg_entries fg), O)
  | append => (with_entries fg (fg_entries fg ++ [e]), length (fg_entries fg))
  end.

Fixpoint update_nth {A} (n : nat) (f : A -> A) (l : list A) : list A :=
  match l, n with
  | [], _ => []
  | x :: l', O => f x :: l'
  | x :: l', S n' => x :: update_nth n' f l'
  end.

(** A method call on the entry object at position [fe] of the feed: the
    entry is mutated where it sits in the list. *)
Definition on_entry (fe : nat) (f : FeedEntry -> FeedEntry)
  (fg : FeedGenerator) : FeedGenerator :=
  with_entries fg (update_nth fe f (fg_entries fg)).

Definition set_id (v : string) (e : FeedEntry) : FeedEntry :=
  mkFeedEntry (Some v) (fe_title e) (fe_link e) (fe_author e)
    (fe_content e) (fe_updated e) (fe_published e).

Definition set_title (v : string) (e : FeedEntry) : FeedEntry :=
  mkFeedEntry (fe_id e) (Some v) (fe_link e) (fe_author e)
    (fe_content e) (fe_updated e) (fe_published e).

(** [fe.link(d)] adds the link to the links of the entry. *)
Definition add_link (l : link) (e : FeedEntry) : FeedEntry :=
  mkFeedEntry (fe_id e) (fe_title e) (fe_link e ++ [l]) (fe_author e)
    (fe_content e) (fe_updated e) (fe_published e).

(** [fe.author(a)]: [None] leaves the entry as it is. *)
Definition add_author (a : option (list string)) (e : FeedEntry) : FeedEntry :=
  match a with
  | None => e
  | Some l =>
      mkFeedEntry (fe_id e) (fe_title e) (fe_link e) (fe_author e ++ l)
        (fe_content e) (fe_updated e) (fe_published e)
  end.

Definition set_content (v : string) (e : FeedEntry) : FeedEntry :=
  mkFeedEntry (fe_id e) (fe_title e) (fe_link e) (fe_author e)
    (Some v) (fe_updated e) (fe_published e).

Definition set_updated (t : Z) (e : FeedEntry) : FeedEntry :=
  mkFeedEntry (fe_id e) (fe_title e) (fe_link e) (fe_author e)
    (fe_content e) (Some t) (fe_published e).

Definition set_published (d : datetime) (e : FeedEntry) : FeedEntry :=
  mkFeedEntry (fe_id e) (fe_title e) (fe_link e) (fe_author e)
    (fe_content e) (fe_updated e) (Some d).

(** [fe.published(d)] refuses a datetime without time zone. *)
Definition published (fe : nat) (d : datetime) (fg : FeedGenerator)
  : result FeedGenerator :=
  match tz d with
  | None => Raise ValueError
  | Some _ => Return (on_entry fe (set_published d) fg)
  end.

End Feedgen.

Export Feedgen.

(** ** The world the program runs in *)

Inductive level : Type := INFO | CRITICAL.

(** What a run can read and change outside its own variables: the wall
    clock, the records the root logger lets through to standard output (its
    level is [INFO], so the [debug] calls of the program emit nothing), and
    the feed file.  The content of the feed file is represented by the feed
    that [rss_file] renders into it; [None] means the file does not exist.
    [rss_error] tells for each feed whether rendering and writing it would
    fail in this world (a destination that cannot be written, a text the XML
    library refuses), and with which exception. *)
Record World : Type := mkWorld {
  clock : nat -> Z;          (* the instant returned by the n-th reading *)
  reads : nat;               (* readings of the clock so far *)
  stdout : list (level * string);
  rss_error : FeedGenerator -> option exn;
  feed_file : option FeedGenerator
}.

Definition IO (A : Type) : Type := World -> result A * World.

Definition ret {A} (a : A) : IO A := fun w => (Return a, w).

Definition iobind {A B} (c : IO A) (k : A -> IO B) : IO B :=
  fun w =>
    match c w with
    | (Return a, w') => k a w'
    | (Raise e, w') => (Raise e, w')
    end.

Definition lift {A} (r : result A) : IO A := fun w => (r, w).

Notation "x <~ c1 ;; c2" := (iobind c1 (fun x => c2))
  (at level 61, c1 at next level, right associativity) : py_scope.
Notation "c1 ;;; c2" := (iobind c1 (fun _ => c2))
  (at level 61, right associativity) : py_scope.

(** Reading the wall clock ([datetime.now], [arrow.utcnow]). *)
Definition now : IO Z :=
  fun w => (Return (clock w (reads w)),
            mkWorld (clock w) (S (reads w)) (stdout w)
              (rss_error w) (feed_file w)).

Definition log (l : level) (msg : string) : IO unit :=
  fun w => (Return tt,
            mkWorld (clock w) (reads w) (stdout w ++ [(l, msg)])
              (rss_error w) (feed_file w)).

(** [fg.rss_file(path, pretty=True)]: the file is replaced by the rendering
    of the feed, or the call raises and the file stays as it is. *)
Definition rss_file (fg : FeedGenerator) : IO unit :=
  fun w =>
    match rss_error w fg with
    | None =>
        (Return tt,
         mkWorld (clock w) (reads w) (stdout w) (rss_error w) (Some fg))
    | Some e => (Raise e, w)
    end.

(** [FeedGenerator()]: the constructor stamps the feed with the current date
    and time, once for atom:updated and once for rss:lastBuildDate (feedgen
    documents it: "if not set, updated has as value the current date and
    time"); [rss_file] renders the second as the [lastBuildDate] of the
    channel. *)
Definition FeedGenerator_init : IO FeedGenerator :=
  u <~ now ;;
  b <~ now ;;
  ret (mkFeedGenerator None None [] None None None
         (Some "http://www.rssboard.org/rss-specification") None u b []).

(** [FeedEntry()] reads the clock for its stamp. *)
Definition FeedEntry_init : IO FeedEntry :=
  t <~ now ;;
  ret (new_entry t).

(** [fg.add_entry(order=o)]: called without an entry, it builds one with
    [FeedEntry()], puts it in the list of the feed and returns it. *)
Definition add_entry (fg : FeedGenerator) (o : order)
  : IO (FeedGenerator * nat) :=
  e <~ FeedEntry_init ;;
  ret (put_entry fg e o).

(** ** make_feed.py *)

Definition BASE_URL : string := "https://podcast.app".
Definition PG_URL : string :=
  "https://podcast.app/paul-graham-essays-audio-p1755465/?limit=250&offset=0".

(** The attrs class [Info]: five fields, each with an [instance_of]
    validator. *)
Record Info : Type := mkInfo {
  id : string;
  title : string;
  description : string;
  enc : string;
  date : datetime
}.

(** [Info(id=.., title=.., description=.., enc=.., date=..)]: the validators
    run in the constructor and raise [TypeError] for a value that is not a
    [str] ([None], or a list). *)
Definition Info_init (i : option attr_value) (t d : option string)
  (e : option attr_value) (dt : datetime) : result Info :=
  match i, t, d, e with
  | Some (AttrStr i'), Some t', Some d', Some (AttrStr e') =>
      Return (mkInfo i' t' d' e' dt)
  | _, _, _, _ => Raise TypeError
  end.

Definition resp_report (resp : Response) : string :=
  str_of_int (status_code resp) ++ " " ++ reason resp.

(** The truth value of [li.find(..)]: a tag object is always true, [None] is
    false. *)
Definition truthy (o : option PageElement) : bool :=
  match o with
  | Some _ => true
  | None => false
  end.

(** The generator is consumed once, by the loop of [main]; it is given here
    as the list of the rows it yields, in the order it yields them. *)
Definition gen_entries (resp : Response) : list PageElement :=
  let soup := document resp in
  filter (fun li => truthy (find li "span" "ep-published")) (find_all soup "tr").

Definition extract_info (li : PageElement) : result Info :=
  a <- deref (find li "a" "ep-item") ;;
  let id := get a "href" in
  h3 <- deref (find li "h3" "ep-row-title") ;;
  let title := dot_string h3 in
  p <- deref (find li "p" "ep-row-desc") ;;
  let description := dot_string p in
  span <- deref (find li "span" "ep-published") ;;
  s <- deref (dot_string span) ;;
  let date_str := strip s in
  d <- strptime date_str ;;
  let date := replace_tzinfo d utc in
  btn <- deref (find li "a" "play-btn") ;;
  let enc := get btn "data-mp3" in
  Info_init id title description enc date.

Definition create_base_feed : IO FeedGenerator :=
  fg <~ FeedGenerator_init ;;
  ret (mkFeedGenerator
         (Some PG_URL)
         (Some "Paul Graham Essays (Audio)")
         (fg_link fg ++
            [mkLink "https://podcast.app/paul-graham-essays-audio-p1755465/"
               "self"])
         (Some "https://podcast-api-images.s3.amazonaws.com/podcast_logo_1755465_300x300.jpg")
         (Some "en")
         (Some "PG Podcast")
         (Some "http://www.rssboard.org/rss-specification")
         (fg_author fg) (fg_updated fg) (fg_lastBuildDate fg)
         (fg_entries fg)).

Definition add_feed_item (fg : FeedGenerator) (info : Info) : IO FeedGenerator :=
  r <~ add_entry fg append ;;
  let (fg, fe) := r in
  let fg := on_entry fe (set_id (BASE_URL ++ id info)) fg in
  let fg := on_entry fe (set_title (title info)) fg in
  let fg := on_entry fe (add_link (mkLink (enc info) "alternate")) fg in
  let fg := on_entry fe (add_author (fg_author fg)) fg in
  let fg := on_entry fe (set_content (description info)) fg in
  t <~ now ;;
  let fg := on_entry fe (set_updated t) fg in
  lift (published fe (date info) fg).

Definition write_feed (fg : FeedGenerator) : IO unit := rss_file fg.

(** The list comprehension of [main]: rows are taken one after the other,
    each is extracted and then added; an exception ends the loop. *)
Fixpoint add_items (lis : list PageElement) (fg : FeedGenerator)
  : IO FeedGenerator :=
  match lis with
  | [] => ret fg
  | li :: lis' =>
      info <~ lift (extract_info li) ;;
      fg' <~ add_feed_item fg info ;;
      add_items lis' fg'
  end.

(** [main], given the response [get_release_pages()] returned (the cache
    installed first only saves requests).  The result is the value returned
    ([None] or [1]). *)
Definition main (resp_pg : Response) : IO (option Z) :=
  if negb (ok resp_pg) then
    log CRITICAL ("PG pages download failed: " ++ resp_report resp_pg) ;;;
    ret (Some 1)
  else
    log INFO "Download pages retrieved." ;;;
    fg <~ create_base_feed ;;
    log INFO "Base feed generator created" ;;;
    fg <~ add_items (gen_entries resp_pg) fg ;;
    log INFO "Articles added to feed" ;;;
    write_feed fg ;;;
    log INFO "Feed written to disk" ;;;
    ret None.

(** [sys.exit(main())]: the status of the process.  An exception that
    leaves [main] is not caught: the interpreter prints the traceback and
    ends with status 1. *)
Definition exit_status (r : result (option Z)) : Z :=
  match r with
  | Return None => 0
  | Return (Some n) => n
  | Raise _ => 1
  end.

(** ** Specification-level notions

    These definitions follow the words of the specification; the theorems
    below compare them with the program. *)

(** [d] is an element with tag name [n] carrying the class [cls]. *)
Definition is_element (n cls : string) (d : PageElement) : Prop :=
  name_of d = Some n /\ has_class cls d = true.

(** No element [n.cls] below [li]. *)
Definition absent (n cls : string) (li : PageElement) : Prop :=
  forall d, In d (descendants li) -> ~ is_element n cls d.

(** A table row that contains a publication marker. *)
Definition marked_row (e : PageElement) : Prop :=
  name_of e = Some "tr" /\
  exists d, In d (descendants e) /\ is_element "span" "ep-published" d.

(** The five elements the extractor looks up. *)
Definition required_elements : list (string * string) :=
  [ ("a", "ep-item"); ("h3", "ep-row-title"); ("p", "ep-row-desc");
    ("span", "ep-published"); ("a", "play-btn") ].

(** Every required part of the row [li] is there and has the expected
    shape, with the values of [r]. *)
Definition complete_row (li : PageElement) (r : Info) : Prop :=
  exists a h p s b txt dt,
    find li "a" "ep-item" = Some a /\ get a "href" = Some (AttrStr (id r)) /\
    find li "h3" "ep-row-title" = Some h /\ dot_string h = Some (title r) /\
    find li "p" "ep-row-desc" = Some p /\ dot_string p = Some (description r) /\
    find li "span" "ep-published" = Some s /\ dot_string s = Some txt /\
    strptime (strip txt) = Return dt /\ date r = replace_tzinfo dt utc /\
    find li "a" "play-btn" = Some b /\ get b "data-mp3" = Some (AttrStr (enc r)).

(** A required element or attribute of the row [li] is absent, or a text
    does not have the expected shape. *)
Definition defective_row (li : PageElement) : Prop :=
  (exists n cls, In (n, cls) required_elements /\ absent n cls li)
  \/ (exists a, find li "a" "ep-item" = Some a /\
                forall v, get a "href" <> Some (AttrStr v))
  \/ (exists b, find li "a" "play-btn" = Some b /\
                forall v, get b "data-mp3" <> Some (AttrStr v))
  \/ (exists h, find li "h3" "ep-row-title" = Some h /\ dot_string h = None)
  \/ (exists p, find li "p" "ep-row-desc" = Some p /\ dot_string p = None)
  \/ (exists s, find li "span" "ep-published" = Some s /\
                (dot_string s = None \/
                 exists txt, dot_string s = Some txt /\
                             raised (strptime (strip txt)))).

(** The test [gen_entries] applies to the nodes of the document. *)
Definition selected (e : PageElement) : bool :=
  has_name "tr" e && truthy (find e "span" "ep-published").


(** *** Date texts *)

Definition all_digits (s : string) : bool :=
  forallb isdigit (list_ascii_of_string s).

(** The form the specification gives: two digits, two digits, four digits,
    separated by dots. *)
Definition strict_form (s : string) : Prop :=
  exists m d y,
    s = m ++ "." ++ d ++ "." ++ y /\
    String.length m = 2%nat /\ all_digits m = true /\
    String.length d = 2%nat /\ all_digits d = true /\
    String.length y = 4%nat /\ all_digits y = true.

(** A month text: one or two digits. *)
Definition month_text (m : string) : Prop :=
  (String.length m = 1%nat \/ String.length m = 2%nat) /\ all_digits m = true.

(** A day text: one or two digits, or a space and one digit. *)
Definition day_text (d : string) : Prop :=
  month_text d \/ exists c, d = String " " (String c "") /\ isdigit c = true.

(** A year text: four digits. *)
Definition year_text (y : string) : Prop :=
  String.length y = 4%nat /\ all_digits y = true.

(** *** Feeds *)

(** The entry [add_feed_item] makes from a record at the instant [t], in a
    feed without author. *)
Definition entry_of (info : Info) (t : Z) : FeedEntry :=
  mkFeedEntry (Some (BASE_URL ++ id info)) (Some (title info))
    [mkLink (enc info) "alternate"] [] (Some (description info))
    (Some t) (Some (date info)).

(** The entries made from [infos], the first stamped with reading [k] of
    the clock, each next one two readings later (one reading goes to the
    constructor of the entry, the next is the stamp). *)
Fixpoint stamped (c : nat -> Z) (k : nat) (infos : list Info)
  : list FeedEntry :=
  match infos with
  | [] => []
  | info :: infos' => entry_of info (c k) :: stamped c (S (S k)) infos'
  end.

(** Extraction of all rows, in order, up to the first failure. *)
Fixpoint extract_all (lis : list PageElement) : result (list Info) :=
  match lis with
  | [] => Return []
  | li :: lis' =>
      info <- extract_info li ;;
      infos <- extract_all lis' ;;
      Return (info :: infos)
  end.

Definition erase_entry_updated (e : FeedEntry) : FeedEntry :=
  mkFeedEntry (fe_id e) (fe_title e) (fe_link e) (fe_author e)
    (fe_content e) None (fe_published e).

(** The feed with the "updated" field of every entry blanked. *)
Definition erase_updated (fg : FeedGenerator) : FeedGenerator :=
  mkFeedGenerator (fg_id fg) (fg_title fg) (fg_link fg) (fg_logo fg)
    (fg_language fg) (fg_description fg) (fg_docs fg) (fg_author fg)
    (fg_updated fg) (fg_lastBuildDate fg)
    (map erase_entry_updated (fg_entries fg)).

(** The feed with every instant read from the wall clock blanked: the
    stamps of the constructor and the "updated" field of every entry. *)
Definition erase_clock (fg : FeedGenerator) : FeedGenerator :=
  mkFeedGenerator (fg_id fg) (fg_title fg) (fg_link fg) (fg_logo fg)
    (fg_language fg) (fg_description fg) (fg_docs fg) (fg_author fg)
    0 0 (map erase_entry_updated (fg_entries fg)).

(** The feed [create_base_feed] makes at the stamps [u] and [b], with the
    entries [es]. *)
Definition base_feed (u b : Z) (es : list FeedEntry) : FeedGenerator :=
  mkFeedGenerator
    (Some PG_URL)
    (Some "Paul Graham Essays (Audio)")
    [mkLink "https://podcast.app/paul-graham-essays-audio-p1755465/" "self"]
    (Some "https://podcast-api-images.s3.amazonaws.com/podcast_logo_1755465_300x300.jpg")
    (Some "en")
    (Some "PG Podcast")
    (Some "http://www.rssboard.org/rss-specification")
    None u b es.

(** ** Fixtures *)

Definition class_ (c : string) : string * attr_value := ("class", AttrList [c]).

(** A listing row: the item anchor around the title heading, then the
    description paragraph, the published marker and the play button. *)
Definition episode_row (href : string) (title_nodes desc_nodes : list PageElement)
  (published : string) (play : list PageElement) : PageElement :=
  Tag "tr" []
    [ Tag "td" []
        [ Tag "a" [class_ "ep-item"; ("href", AttrStr href)]
            [ Tag "h3" [class_ "ep-row-title"] title_nodes ];
          Tag "p" [class_ "ep-row-desc"] desc_nodes;
          Tag "span" [class_ "ep-published"] [NavigableString published] ];
      Tag "td" [] play ].

Definition play_button (mp3 : string) : PageElement :=
  Tag "a" [("class", AttrList ["btn"; "play-btn"]); ("data-mp3", AttrStr mp3)] [].

(** Row A: all fields, published "01.02.2023". *)
Definition row_A : PageElement :=
  episode_row "/e/how-to-do-great-work"
    [NavigableString "How to Do Great Work"]
    [NavigableString "An essay read aloud."]
    " 01.02.2023 "
    [play_button "https://cdn.podcast.app/1.mp3"].

(** Row B: the play button is missing. *)
Definition row_B : PageElement :=
  episode_row "/e/superlinear-returns"
    [NavigableString "Superlinear Returns"]
    [NavigableString "Another essay."]
    "02.03.2023"
    [].

(** A row whose description paragraph has no content. *)
Definition row_empty_desc : PageElement :=
  episode_row "/e/how-to-do-great-work"
    [NavigableString "How to Do Great Work"]
    []
    "01.02.2023"
    [play_button "https://cdn.podcast.app/1.mp3"].

(** A row published "3.15.2024". *)
Definition row_short_month : PageElement :=
  episode_row "/e/the-best-essay"
    [NavigableString "The Best Essay"]
    [NavigableString "Essay."]
    "3.15.2024"
    [play_button "https://cdn.podcast.app/2.mp3"].

(** A row whose marker carries the class on a [div]. *)
Definition row_div_marker : PageElement :=
  Tag "tr" []
    [ Tag "td" []
        [ Tag "div" [class_ "ep-published"] [NavigableString "01.02.2023"] ] ].

Definition page (rows : list PageElement) : PageElement :=
  Tag "[document]" [] [ Tag "table" [] (Tag "tr" [] [Tag "th" [] []] :: rows) ].

(** A world whose clock counts its readings from [t0], with an empty log,
    no feed file yet, and where writing the feed works. *)
Definition world_at (t0 : Z) : World :=
  mkWorld (fun n => t0 + Z.of_nat n) 0 [] (fun _ => None) None.

Definition info_A : Info :=
  mkInfo "/e/how-to-do-great-work" "How to Do Great Work"
    "An essay read aloud." "https://cdn.podcast.app/1.mp3"
    (mkDatetime 2023 1 2 0 0 0 0 (Some utc)).

(** [m] is matched, character by character, by the sequence of classes
    [p]. *)
Fixpoint seq_matches (p : list char_class) (m : string) : Prop :=
  match p, m with
  | [], EmptyString => True
  | cl :: p', String c m' => cl c = true /\ seq_matches p' m'
  | _, _ => False
  end.

(** The fields besides the description are there and have the expected
    shape, with the values [i], [t], [e] and [dt]. *)
Definition other_fields (li : PageElement) (i t e : string) (dt : datetime)
  : Prop :=
  exists a h s b txt d0,
    find li "a" "ep-item" = Some a /\ get a "href" = Some (AttrStr i) /\
    find li "h3" "ep-row-title" = Some h /\ dot_string h = Some t /\
    find li "span" "ep-published" = Some s /\ dot_string s = Some txt /\
    strptime (strip txt) = Return d0 /\ dt = replace_tzinfo d0 utc /\
    find li "a" "play-btn" = Some b /\ get b "data-mp3" = Some (AttrStr e).

(** *** Worlds and feeds after some steps *)

(** The world after [n] more readings of the clock. *)
Definition ticks (n : nat) (w : World) : World :=
  mkWorld (clock w) (n + reads w) (stdout w) (rss_error w)
    (feed_file w).

(** The world after the records [l] were logged. *)
Definition logged (l : list (level * string)) (w : World) : World :=
  mkWorld (clock w) (reads w) (stdout w ++ l) (rss_error w)
    (feed_file w).

(** The world after the feed [fg] was written to the feed file. *)
Definition written (fg : FeedGenerator) (w : World) : World :=
  mkWorld (clock w) (reads w) (stdout w) (rss_error w) (Some fg).

(** The entry [add_feed_item] makes at the instant [t] in a feed whose
    author is [a]. *)
Definition item_entry (a : option (list string)) (info : Info) (t : Z)
  : FeedEntry :=
  mkFeedEntry (Some (BASE_URL ++ id info)) (Some (title info))
    [mkLink (enc info) "alternate"]
    (match a with Some l => l | None => [] end)
    (Some (description info)) (Some t) (Some (date info)).

(** The records of a run that fetched the page, up to each milestone. *)
Definition log_retrieved : list (level * string) :=
  [ (INFO, "Download pages retrieved.") ].
Definition log_created : list (level * string) :=
  [ (INFO, "Base feed generator created") ].
Definition log_added : list (level * string) :=
  [ (INFO, "Articles added to feed") ].
Definition log_done : list (level * string) :=
  [ (INFO, "Feed written to disk") ].

Definition is_critical (r : level * string) : bool :=
  match fst r with
  | CRITICAL => true
  | INFO => false
  end.

(** Responses: a "300 Multiple Choices" whose body lists no episode, a
    "503", and a listing with three episode rows, two of them with the same
    id. *)
Definition resp_300 : Response :=
  mkResponse 300 "Multiple Choices"
    (Tag "[document]" [] [Tag "p" [] [NavigableString "Choices"]]).

Definition resp_503 : Response :=
  mkResponse 503 "Service Unavailable" (Tag "[document]" [] []).

Definition resp_listing : Response :=
  mkResponse 200 "OK" (page [row_A; row_short_month; row_div_marker; row_A]).

(** The two-row listing: row A, then row B without play button. *)
Definition resp_A_B : Response := mkResponse 200 "OK" (page [row_A; row_B]).


(** ** Further notions and fixtures *)

(** The same world with another feed file on disk. *)
Definition with_file (prev : option FeedGenerator) (w : World) : World :=
  mkWorld (clock w) (reads w) (stdout w) (rss_error w) prev.

(** A world where the feed cannot be written, with an earlier feed on
    disk. *)
Definition world_readonly : World :=
  mkWorld (fun n => Z.of_nat n) 0 [] (fun _ => Some OSError)
    (Some (base_feed 0 0 [])).

(** The record the critical report of a failed fetch makes. *)
Definition critical_record (resp : Response) : level * string :=
  (CRITICAL, "PG pages download failed: " ++ resp_report resp).

(** The feed-level data, without the stamps and the entries. *)
Definition metadata (fg : FeedGenerator)
  : option string * option string * list link * option string
    * option string * option string * option string * option (list string) :=
  (fg_id fg, fg_title fg, fg_link fg, fg_logo fg, fg_language fg,
   fg_description fg, fg_docs fg, fg_author fg).

(** Every character of [s] is white space. *)
Definition all_space (s : string) : bool :=
  forallb isspace (list_ascii_of_string s).

(** No character of [s] is a space. *)
Definition no_space (s : string) : bool :=
  forallb (fun c => negb (Ascii.eqb c " ")) (list_ascii_of_string s).

(** The four elements looked up before the date is parsed. *)
Definition elements_before_date : list (string * string) :=
  [ ("a", "ep-item"); ("h3", "ep-row-title"); ("p", "ep-row-desc");
    ("span", "ep-published") ].

(** The marker of the row [li] is there and its text parses to [dt]. *)
Definition date_parses (li : PageElement) (dt : datetime) : Prop :=
  exists s txt,
    find li "span" "ep-published" = Some s /\ dot_string s = Some txt /\
    strptime (strip txt) = Return dt.

(** A row that wraps a table with row A in it. *)
Definition row_wrapper : PageElement :=
  Tag "tr" [] [ Tag "td" [] [ Tag "table" [] [ row_A ] ] ].

(** A row with two item anchors, the first without [href]. *)
Definition row_two_anchors : PageElement :=
  Tag "tr" []
    [ Tag "td" []
        [ Tag "a" [class_ "ep-item"] [];
          Tag "a" [class_ "ep-item"; ("href", AttrStr "/e/second")]
            [ Tag "h3" [class_ "ep-row-title"] [NavigableString "Second"] ];
          Tag "p" [class_ "ep-row-desc"] [NavigableString "Text."];
          Tag "span" [class_ "ep-published"] [NavigableString "01.02.2023"];
          play_button "https://cdn.podcast.app/1.mp3" ] ].

(** A row with a date that does not parse and no play button. *)
Definition row_bad_date_no_play : PageElement :=
  episode_row "/e/x" [NavigableString "X"] [NavigableString "Y"]
    "2023-01-02" [].

(** The string nodes among a list of nodes. *)
Definition strings_of (l : list PageElement) : list string :=
  flat_map (fun e => match e with
                     | NavigableString s => [s]
                     | Tag _ _ _ => []
                     end) l.

(** A listing whose second row fails on the play button and whose third
    row fails on the date. *)
Definition resp_A_B_bad : Response :=
  mkResponse 200 "OK" (page [row_A; row_B; row_bad_date_no_play]).
(** ** Examples *)

Example strptime_strict :
  strptime "03.15.2024" = Return (mkDatetime 2024 3 15 0 0 0 0 None).
Proof. reflexivity. Qed.

Example strptime_short_month :
  strptime "3.15.2024" = Return (mkDatetime 2024 3 15 0 0 0 0 None).
Proof. reflexivity. Qed.

Example strptime_iso : strptime "2024-03-15" = Raise ValueError.
Proof. reflexivity. Qed.

Example strptime_feb30 : strptime "02.30.2024" = Raise ValueError.
Proof. reflexivity. Qed.

Example strptime_space_day :
  strptime "12. 5.2024" = Return (mkDatetime 2024 12 5 0 0 0 0 None).
Proof. reflexivity. Qed.


(** ** Lookups in the document *)

Section Lookups.

Lemma has_name_spec n e : has_name n e = true <-> name_of e = Some n.
Proof.
  unfold has_name. destruct (name_of e) as [m|]; split; intros H;
    try discriminate.
  - apply String.eqb_eq in H. now subst.
  - injection H as ->. apply String.eqb_refl.
Qed.

Lemma is_element_spec n cls d :
  has_name n d && has_class cls d = true <-> is_element n cls d.
Proof.
  unfold is_element. rewrite andb_true_iff, has_name_spec. tauto.
Qed.

Lemma filter_nil_iff {A} (f : A -> bool) l :
  filter f l = [] <-> forall x, In x l -> f x = false.
Proof.
  induction l as [|x l IH]; simpl.
  - split; [intros _ y []|reflexivity].
  - destruct (f x) eqn:E; split; intros H.
    + discriminate.
    + specialize (H x (or_introl eq_refl)). congruence.
    + intros y [<-|Hy]; [assumption|]. now apply IH.
    + apply IH. intros y Hy. apply H. now right.
Qed.

Lemma find_None_iff li n cls : find li n cls = None <-> absent n cls li.
Proof.
  unfold find, find_all_class, absent.
  destruct (filter _ _) as [|r l] eqn:E.
  - split; [intros _|reflexivity].
    intros d Hd Hel. apply is_element_spec in Hel.
    rewrite (proj1 (filter_nil_iff _ _) E d Hd) in Hel. discriminate.
  - split; [discriminate|]. intros H. exfalso.
    assert (Hr : In r (filter (fun d => has_name n d && has_class cls d)
                          (descendants li))) by (rewrite E; now left).
    apply filter_In in Hr. destruct Hr as [Hr1 Hr2].
    apply (H r Hr1). now apply is_element_spec.
Qed.

Lemma find_Some li n cls d :
  find li n cls = Some d -> In d (descendants li) /\ is_element n cls d.
Proof.
  unfold find, find_all_class.
  destruct (filter _ _) as [|r l] eqn:E; [discriminate|].
  intros [= ->].
  assert (Hr : In d (filter (fun d => has_name n d && has_class cls d)
                        (descendants li))) by (rewrite E; now left).
  apply filter_In in Hr. destruct Hr as [Hr1 Hr2].
  split; [assumption|]. now apply is_element_spec.
Qed.

Lemma find_is_Some li n cls d :
  In d (descendants li) -> is_element n cls d ->
  exists d', find li n cls = Some d'.
Proof.
  intros Hd Hel. destruct (find li n cls) as [d'|] eqn:E; [now exists d'|].
  apply find_None_iff in E. now destruct (E d Hd).
Qed.

Lemma truthy_find_iff li n cls :
  truthy (find li n cls) = true <->
  exists d, In d (descendants li) /\ is_element n cls d.
Proof.
  split.
  - destruct (find li n cls) as [d|] eqn:E; [|discriminate].
    intros _. exists d. now apply find_Some.
  - intros (d & Hd & Hel).
    destruct (find_is_Some li n cls d Hd Hel) as [d' ->]. reflexivity.
Qed.

End Lookups.

(** ** The entry selector *)

Lemma selected_iff e : selected e = true <-> marked_row e.
Proof.
  unfold selected, marked_row.
  rewrite andb_true_iff, has_name_spec, truthy_find_iff. tauto.
Qed.

Lemma filter_filter {A} (f g : A -> bool) l :
  filter g (filter f l) = filter (fun x => f x && g x) l.
Proof.
  induction l as [|x l IH]; simpl; [reflexivity|].
  destruct (f x); simpl; [destruct (g x)|]; now rewrite IH.
Qed.

Lemma gen_entries_filter resp :
  gen_entries resp = filter selected (descendants (document resp)).
Proof. unfold gen_entries, find_all. apply filter_filter. Qed.

(** C5. Filter completeness: the entry selector yields the nodes of the
    document, in document order, that pass a test which holds exactly of the
    table rows with a publication marker (a [span] of class [ep-published])
    among their descendants.  A row without the marker is therefore not
    yielded, and no record is made from it. *)
Theorem C5_filter_completeness :
  forall resp : Response,
    exists keep : PageElement -> bool,
      (forall e, keep e = true <-> marked_row e) /\
      gen_entries resp = filter keep (descendants (document resp)) /\
      (forall li, In li (gen_entries resp) <->
                  In li (descendants (document resp)) /\ marked_row li).
Proof.
  intros resp. exists selected. split; [exact selected_iff|]. split.
  - apply gen_entries_filter.
  - intros li. rewrite gen_entries_filter, filter_In, selected_iff. tauto.
Qed.

(** ** The field extractor *)

Lemma Info_init_Return i t d e dt r :
  Info_init i t d e dt = Return r <->
  i = Some (AttrStr (id r)) /\ t = Some (title r) /\
  d = Some (description r) /\ e = Some (AttrStr (enc r)) /\ date r = dt.
Proof.
  unfold Info_init. split.
  - destruct i as [[i'|]|], t as [t'|], d as [d'|], e as [[e'|]|];
      try discriminate.
    intros [= <-]. simpl. auto.
  - intros (-> & -> & -> & -> & <-). now destruct r.
Qed.

Lemma Info_init_raised i t d e dt :
  raised (Info_init i t d e dt) <->
  (forall v, i <> Some (AttrStr v)) \/ t = None \/ d = None \/
  (forall v, e <> Some (AttrStr v)).
Proof.
  unfold Info_init, raised. split.
  - intros [x H].
    destruct i as [[i'|]|]; [|left; intros v; discriminate..].
    destruct t as [t'|]; [|right; left; reflexivity].
    destruct d as [d'|]; [|right; right; left; reflexivity].
    destruct e as [[e'|]|]; [discriminate|right; right; right; intros v;
                                           discriminate..].
  - intros [H|[->|[->|H]]].
    + destruct i as [[i'|]|]; [now destruct (H i')|now exists TypeError..].
    + exists TypeError. now destruct i as [[?|?]|].
    + exists TypeError. destruct i as [[?|?]|]; try reflexivity.
      now destruct t.
    + exists TypeError. destruct i as [[?|?]|]; try reflexivity.
      destruct t; try reflexivity. destruct d; try reflexivity.
      destruct e as [[e'|]|]; [now destruct (H e')|reflexivity..].
Qed.

Lemma extract_info_complete li r :
  extract_info li = Return r <-> complete_row li r.
Proof.
  unfold extract_info, complete_row. split.
  - destruct (find li "a" "ep-item") as [a|]; [simpl|discriminate].
    destruct (find li "h3" "ep-row-title") as [h|]; [simpl|discriminate].
    destruct (find li "p" "ep-row-desc") as [p|]; [simpl|discriminate].
    destruct (find li "span" "ep-published") as [s|]; [simpl|discriminate].
    destruct (dot_string s) as [txt|] eqn:Et; [simpl|discriminate].
    destruct (strptime (strip txt)) as [dt|] eqn:Ed; [simpl|discriminate].
    destruct (find li "a" "play-btn") as [b|]; [simpl|discriminate].
    intros H. apply Info_init_Return in H.
    destruct H as (H1 & H2 & H3 & H4 & H5).
    exists a, h, p, s, b, txt, dt. repeat split; auto.
  - intros (a & h & p & s & b & txt & dt & -> & Ha & -> & Hh & -> & Hp & ->
            & Hs & Hdt & Hd & -> & Hb).
    simpl. rewrite Hs. simpl. rewrite Hdt. simpl.
    apply Info_init_Return. auto.
Qed.

Lemma required_elements_cases n cls :
  In (n, cls) required_elements ->
  (n, cls) = ("a", "ep-item") \/ (n, cls) = ("h3", "ep-row-title") \/
  (n, cls) = ("p", "ep-row-desc") \/ (n, cls) = ("span", "ep-published") \/
  (n, cls) = ("a", "play-btn").
Proof.
  simpl. intros [H|[H|[H|[H|[H|[]]]]]]; symmetry in H; tauto.
Qed.

Lemma extract_info_absent li n cls :
  In (n, cls) required_elements -> absent n cls li ->
  raised (extract_info li).
Proof.
  intros Hin Habs. apply find_None_iff in Habs.
  unfold extract_info, raised.
  apply required_elements_cases in Hin.
  destruct (find li "a" "ep-item") as [a|] eqn:Ea;
    [simpl|exists AttributeError; reflexivity].
  destruct (find li "h3" "ep-row-title") as [h|] eqn:Eh;
    [simpl|exists AttributeError; reflexivity].
  destruct (find li "p" "ep-row-desc") as [p|] eqn:Ep;
    [simpl|exists AttributeError; reflexivity].
  destruct (find li "span" "ep-published") as [s|] eqn:Es;
    [simpl|exists AttributeError; reflexivity].
  destruct (dot_string s) as [txt|];
    [simpl|exists AttributeError; reflexivity].
  destruct (strptime (strip txt)) as [dt|e]; [simpl|now exists e].
  destruct (find li "a" "play-btn") as [b|] eqn:Eb;
    [simpl|exists AttributeError; reflexivity].
  exfalso.
  destruct Hin as [H|[H|[H|[H|H]]]]; injection H as -> ->; congruence.
Qed.

Lemma extract_info_defective li :
  raised (extract_info li) <-> defective_row li.
Proof.
  split.
  - unfold extract_info, defective_row. intros Hr.
    destruct (find li "a" "ep-item") as [a|] eqn:Ea.
    2:{ left. exists "a", "ep-item". split; [simpl; auto|].
        now apply find_None_iff. }
    destruct (find li "h3" "ep-row-title") as [h|] eqn:Eh.
    2:{ left. exists "h3", "ep-row-title". split; [simpl; auto|].
        now apply find_None_iff. }
    destruct (find li "p" "ep-row-desc") as [p|] eqn:Ep.
    2:{ left. exists "p", "ep-row-desc". split; [simpl; auto|].
        now apply find_None_iff. }
    destruct (find li "span" "ep-published") as [s|] eqn:Es.
    2:{ left. exists "span", "ep-published". split; [simpl; auto 6|].
        now apply find_None_iff. }
    simpl in Hr.
    destruct (dot_string s) as [txt|] eqn:Et.
    2:{ do 5 right. exists s. auto. }
    simpl in Hr.
    destruct (strptime (strip txt)) as [dt|e] eqn:Ed.
    2:{ do 5 right. exists s. split; [reflexivity|]. right. exists txt.
        split; [assumption|]. rewrite Ed. now exists e. }
    simpl in Hr.
    destruct (find li "a" "play-btn") as [b|] eqn:Eb.
    2:{ left. exists "a", "play-btn". split; [simpl; auto 7|].
        now apply find_None_iff. }
    simpl in Hr. apply Info_init_raised in Hr.
    destruct Hr as [H|[H|[H|H]]].
    + right. left. exists a. auto.
    + do 3 right. left. exists h. auto.
    + do 4 right. left. exists p. auto.
    + do 2 right. left. exists b. auto.
  - intros [(n & cls & Hin & Habs)|[(a & Ea & Ha)|[(b & Eb & Hb)|[(h & Eh & Hh)
             |[(p & Ep & Hp)|(s & Es & Hs)]]]]].
    + now apply (extract_info_absent li n cls).
    + destruct (extract_info li) as [r|e] eqn:E; [|now exists e].
      apply extract_info_complete in E.
      destruct E as (a' & h' & p' & s' & b' & txt & dt & E1 & E2 & _).
      rewrite Ea in E1. injection E1 as <-. now destruct (Ha _ E2).
    + destruct (extract_info li) as [r|e] eqn:E; [|now exists e].
      apply extract_info_complete in E.
      destruct E as (a' & h' & p' & s' & b' & txt & dt & _ & _ & _ & _ & _
                     & _ & _ & _ & _ & _ & E1 & E2).
      rewrite Eb in E1. injection E1 as <-. now destruct (Hb _ E2).
    + destruct (extract_info li) as [r|e] eqn:E; [|now exists e].
      apply extract_info_complete in E.
      destruct E as (a' & h' & p' & s' & b' & txt & dt & _ & _ & E1 & E2 & _).
      rewrite Eh in E1. injection E1 as <-. congruence.
    + destruct (extract_info li) as [r|e] eqn:E; [|now exists e].
      apply extract_info_complete in E.
      destruct E as (a' & h' & p' & s' & b' & txt & dt & _ & _ & _ & _ & E1
                     & E2 & _).
      rewrite Ep in E1. injection E1 as <-. congruence.
    + destruct (extract_info li) as [r|e] eqn:E; [|now exists e].
      apply extract_info_complete in E.
      destruct E as (a' & h' & p' & s' & b' & txt & dt & _ & _ & _ & _ & _
                     & _ & E1 & E2 & E3 & _).
      rewrite Es in E1. injection E1 as <-.
      destruct Hs as [Hs|(txt' & Hs & e & He)]; congruence.
Qed.


Example extract_row_A : extract_info row_A = Return info_A.
Proof. reflexivity. Qed.

Example extract_row_B : extract_info row_B = Raise AttributeError.
Proof. reflexivity. Qed.

Example gen_entries_page :
  gen_entries (mkResponse 200 "OK" (page [row_A; row_div_marker; row_B]))
  = [row_A; row_B].
Proof. reflexivity. Qed.

(** C10. Elements are matched by tag name and class together.  When no
    descendant of a row is at once one of the expected elements ([a] of
    class [ep-item], [h3] of class [ep-row-title], [p] of class
    [ep-row-desc], [span] of class [ep-published], [a] of class [play-btn])
    the element counts as absent, whatever other tags carry the class:
    extraction of the row raises, and when the element is the publication
    marker the row is not selected at all. *)
Theorem C10_tag_and_class :
  forall (resp : Response) (li : PageElement) (n cls : string),
    In (n, cls) required_elements ->
    (forall d, In d (descendants li) -> has_class cls d = true ->
               name_of d <> Some n) ->
    find li n cls = None /\
    raised (extract_info li) /\
    ((n, cls) = ("span", "ep-published") -> ~ In li (gen_entries resp)).
Proof.
  intros resp li n cls Hin Hno.
  assert (Habs : absent n cls li).
  { intros d Hd [Hn Hc]. exact (Hno d Hd Hc Hn). }
  split; [now apply find_None_iff|].
  split; [now apply (extract_info_absent li n cls)|].
  intros [= -> ->] Hsel.
  rewrite gen_entries_filter in Hsel. apply filter_In in Hsel.
  destruct Hsel as [_ Hsel]. apply selected_iff in Hsel.
  destruct Hsel as (_ & d & Hd & Hel). exact (Habs d Hd Hel).
Qed.

Lemma C10_tag_and_class_witness :
  find row_div_marker "span" "ep-published" = None /\
  raised (extract_info row_div_marker) /\
  ~ In row_div_marker
      (gen_entries (mkResponse 200 "OK" (page [row_A; row_div_marker]))).
Proof.
  destruct (C10_tag_and_class
              (mkResponse 200 "OK" (page [row_A; row_div_marker]))
              row_div_marker "span" "ep-published") as (H1 & H2 & H3).
  - simpl. auto 6.
  - simpl. intros d [<-|[<-|[<-|[]]]]; simpl; discriminate.
  - split; [exact H1|]. split; [exact H2|]. exact (H3 eq_refl).
Defined.

(** ** The regular expression of the date format *)

Section Regex.

Lemma match_seq_sound p : forall s m rest,
  match_seq p s = Some (m, rest) -> s = m ++ rest /\ seq_matches p m.
Proof.
  induction p as [|cl p IH]; intros s m rest; simpl.
  - intros [= <- <-]. auto.
  - destruct s as [|c s']; [discriminate|].
    destruct (cl c) eqn:Ec; [|discriminate].
    destruct (match_seq p s') as [[m' rest']|] eqn:E; [|discriminate].
    intros [= <- <-]. destruct (IH _ _ _ E) as [-> Hm]. simpl. auto.
Qed.

Lemma match_group_sound {A} alts : forall s (k : string -> string -> option A) r,
  match_group alts s k = Some r ->
  exists p m rest,
    In p alts /\ match_seq p s = Some (m, rest) /\ k m rest = Some r.
Proof.
  induction alts as [|p alts IH]; intros s k r; simpl; [discriminate|].
  destruct (match_seq p s) as [[m rest]|] eqn:E.
  - destruct (k m rest) as [r'|] eqn:Ek.
    + intros [= <-]. exists p, m, rest. auto.
    + intros H. destruct (IH _ _ _ H) as (p' & m' & rest' & Hin & H1 & H2).
      exists p', m', rest'. auto.
  - intros H. destruct (IH _ _ _ H) as (p' & m' & rest' & Hin & H1 & H2).
    exists p', m', rest'. auto.
Qed.

Lemma match_dot_sound {A} s (k : string -> option A) r :
  match_dot s k = Some r -> exists s', s = "." ++ s' /\ k s' = Some r.
Proof.
  destruct s as [|c s']; simpl; [discriminate|].
  unfold lit. destruct (Ascii.eqb c ".") eqn:E; [|discriminate].
  apply Ascii.eqb_eq in E. subst c. intros H. now exists s'.
Qed.

Lemma lit_digit a c : isdigit a = true -> lit a c = true -> isdigit c = true.
Proof. unfold lit. intros Ha E. apply Ascii.eqb_eq in E. now subst. Qed.

Lemma range_digit lo hi c :
  isdigit lo = true -> isdigit hi = true -> range lo hi c = true ->
  isdigit c = true.
Proof.
  unfold range, isdigit.
  rewrite !andb_true_iff, !N.leb_le. lia.
Qed.

Lemma group_m_texts p m : In p group_m -> seq_matches p m -> month_text m.
Proof.
  unfold group_m, month_text, all_digits.
  intros [<-|[<-|[<-|[]]]]; destruct m as [|c1 [|c2 [|c3 m]]]; simpl;
    try tauto; intros H; decompose [and] H; clear H;
    repeat match goal with
      | H : lit _ _ = true |- _ => apply lit_digit in H; [|reflexivity]
      | H : range _ _ _ = true |- _ =>
          apply range_digit in H; [|reflexivity..]
      end;
    repeat match goal with H : isdigit _ = true |- _ => rewrite H end;
    auto.
Qed.

Lemma group_d_texts p d : In p group_d -> seq_matches p d -> day_text d.
Proof.
  unfold group_d, day_text, month_text, all_digits.
  intros [<-|[<-|[<-|[<-|[<-|[]]]]]]; destruct d as [|c1 [|c2 [|c3 d]]];
    simpl; try tauto; intros H; decompose [and] H; clear H.
  5:{ right. unfold lit in *.
      match goal with H : Ascii.eqb _ _ = true |- _ =>
        apply Ascii.eqb_eq in H; subst end.
      exists c2. split; [reflexivity|].
      now apply (range_digit "1" "9"). }
  all: left;
    repeat match goal with
      | H : lit _ _ = true |- _ => apply lit_digit in H; [|reflexivity]
      | H : range _ _ _ = true |- _ =>
          apply range_digit in H; [|reflexivity..]
      end;
    unfold digit in *;
    repeat match goal with H : isdigit _ = true |- _ => rewrite H end;
    auto.
Qed.

Lemma group_Y_texts p y : In p group_Y -> seq_matches p y -> year_text y.
Proof.
  unfold group_Y, year_text, all_digits, digit.
  intros [<-|[]]; destruct y as [|c1 [|c2 [|c3 [|c4 [|c5 y]]]]];
    simpl; try tauto.
  intros (-> & -> & -> & -> & _). auto.
Qed.

Lemma append_empty (s : string) : s ++ "" = s.
Proof. induction s as [|c s IH]; simpl; congruence. Qed.

Lemma append_assoc (a b c : string) : (a ++ b) ++ c = a ++ b ++ c.
Proof. induction a as [|x a IH]; simpl; congruence. Qed.

(** What a successful match says about the text. *)
Lemma format_regex_match_sound s m d y rest :
  format_regex_match s = Some (m, d, y, rest) ->
  s = m ++ "." ++ d ++ "." ++ y ++ rest /\
  month_text m /\ day_text d /\ year_text y.
Proof.
  unfold format_regex_match. intros H.
  apply match_group_sound in H.
  destruct H as (p1 & m1 & r1 & Hp1 & Hm1 & H).
  apply match_dot_sound in H. destruct H as (r2 & -> & H).
  apply match_group_sound in H.
  destruct H as (p2 & d2 & r3 & Hp2 & Hm2 & H).
  apply match_dot_sound in H. destruct H as (r4 & -> & H).
  apply match_group_sound in H.
  destruct H as (p3 & y3 & r5 & Hp3 & Hm3 & H).
  injection H as <- <- <- <-.
  apply match_seq_sound in Hm1, Hm2, Hm3.
  destruct Hm1 as [-> Hs1], Hm2 as [-> Hs2], Hm3 as [-> Hs3].
  split; [reflexivity|].
  split; [now apply (group_m_texts p1)|].
  split; [now apply (group_d_texts p2)|now apply (group_Y_texts p3)].
Qed.

Lemma isdigit_cases c :
  isdigit c = true ->
  In c ["0"; "1"; "2"; "3"; "4"; "5"; "6"; "7"; "8"; "9"]%char.
Proof.
  destruct c as [[] [] [] [] [] [] [] []]; vm_compute; intros H;
    try discriminate H; tauto.
Qed.

Ltac digit_cases H :=
  apply isdigit_cases in H; simpl in H;
  destruct H as [<-|[<-|[<-|[<-|[<-|[<-|[<-|[<-|[<-|[<-|[]]]]]]]]]]].

Ltac by_value Hi :=
  vm_compute in Hi;
  first [ discriminate Hi
        | injection Hi as <-;
          first [ lia
                | intros A K r; vm_compute; destruct (K _ r); reflexivity ] ].

Lemma group_m_complete m mv :
  month_text m -> Py.int m = Return mv -> 1 <= mv <= 12 ->
  forall A (K : string -> string -> option A) r,
    match_group group_m (m ++ "." ++ r) (fun m' r1 => match_dot r1 (K m'))
    = K m r.
Proof.
  unfold month_text, all_digits. intros [Hl Hd] Hi Hv.
  destruct m as [|c1 [|c2 [|c3 m]]]; simpl in Hl;
    try (destruct Hl; discriminate); simpl in Hd;
    rewrite ?andb_true_iff in Hd.
  - destruct Hd as [H1 _]. digit_cases H1; by_value Hi.
  - destruct Hd as (H1 & H2 & _). digit_cases H1; digit_cases H2; by_value Hi.
Qed.

Lemma group_d_complete d dv :
  day_text d -> Py.int d = Return dv -> 1 <= dv <= 31 ->
  forall A (K : string -> string -> option A) r,
    match_group group_d (d ++ "." ++ r) (fun d' r1 => match_dot r1 (K d'))
    = K d r.
Proof.
  unfold day_text, month_text, all_digits.
  intros [[Hl Hd]|(c & -> & Hc)] Hi Hv.
  - destruct d as [|c1 [|c2 [|c3 d]]]; simpl in Hl;
      try (destruct Hl; discriminate); simpl in Hd;
      rewrite ?andb_true_iff in Hd.
    + destruct Hd as [H1 _]. digit_cases H1; by_value Hi.
    + destruct Hd as (H1 & H2 & _).
      digit_cases H1; digit_cases H2; by_value Hi.
  - digit_cases Hc; by_value Hi.
Qed.

Lemma group_Y_complete y :
  year_text y ->
  forall A (K : string -> string -> option A),
    match_group group_Y y K = K y "".
Proof.
  unfold year_text, all_digits. intros [Hl Hd] A K.
  destruct y as [|c1 [|c2 [|c3 [|c4 [|c5 y]]]]]; try discriminate Hl.
  simpl in Hd. rewrite !andb_true_iff in Hd.
  destruct Hd as (H1 & H2 & H3 & H4 & _).
  simpl. unfold digit. rewrite H1, H2, H3, H4.
  now destruct (K _ "").
Qed.

(** A text of the lenient form is matched, with these groups. *)
Lemma format_regex_match_complete m d y mv dv :
  month_text m -> Py.int m = Return mv -> 1 <= mv <= 12 ->
  day_text d -> Py.int d = Return dv -> 1 <= dv <= 31 ->
  year_text y ->
  format_regex_match (m ++ "." ++ d ++ "." ++ y) = Some (m, d, y, "").
Proof.
  intros Hm Hmi Hmv Hd Hdi Hdv Hy. unfold format_regex_match.
  rewrite (group_m_complete m mv Hm Hmi Hmv _
             (fun m0 r2 =>
                match_group group_d r2 (fun d0 r3 =>
                match_dot r3 (fun r4 =>
                match_group group_Y r4 (fun y0 r5 =>
                Some (m0, d0, y0, r5)))))).
  rewrite (group_d_complete d dv Hd Hdi Hdv _
             (fun d0 r4 =>
                match_group group_Y r4 (fun y0 r5 => Some (m, d0, y0, r5)))).
  now rewrite (group_Y_complete y Hy).
Qed.

End Regex.

Lemma days_in_month_le y m : days_in_month y m <= 31.
Proof.
  unfold days_in_month.
  destruct (m =? 2); [destruct (is_leap y); lia|].
  destruct ((m =? 4) || (m =? 6) || (m =? 9) || (m =? 11)); lia.
Qed.

Lemma valid_date_bounds y m d :
  valid_date y m d = true -> 1 <= m <= 12 /\ 1 <= d <= 31.
Proof.
  unfold valid_date. rewrite !andb_true_iff, !Z.leb_le.
  pose proof (days_in_month_le y m). lia.
Qed.

(** The texts [strptime] accepts, and the value it gives them. *)
Lemma strptime_Return s dt :
  strptime s = Return dt <->
  exists m d y,
    s = m ++ "." ++ d ++ "." ++ y /\
    month_text m /\ day_text d /\ year_text y /\
    Py.int m = Return (month dt) /\ Py.int d = Return (day dt) /\
    Py.int y = Return (year dt) /\
    valid_date (year dt) (month dt) (day dt) = true /\
    hour dt = 0 /\ minute dt = 0 /\ second dt = 0 /\ microsecond dt = 0 /\
    tz dt = None.
Proof.
  unfold strptime. split.
  - destruct (format_regex_match s) as [[[[m d] y] rest]|] eqn:E;
      [|discriminate].
    destruct rest as [|c rest]; [|discriminate].
    apply format_regex_match_sound in E.
    destruct E as (-> & Hm & Hd & Hy). rewrite append_empty.
    destruct (Py.int y) as [yv|] eqn:Ey; [simpl|discriminate].
    destruct (Py.int m) as [mv|] eqn:Em; [simpl|discriminate].
    destruct (Py.int d) as [dv|] eqn:Ed; [simpl|discriminate].
    destruct (valid_date yv mv dv) eqn:Ev; [|discriminate].
    intros [= <-]. simpl. exists m, d, y.
    split; [reflexivity|]. do 3 (split; [assumption|]). auto 13.
  - intros (m & d & y & -> & Hm & Hd & Hy & Hmi & Hdi & Hyi & Hv & H).
    destruct (valid_date_bounds _ _ _ Hv) as [Hmv Hdv].
    rewrite (format_regex_match_complete m d y _ _ Hm Hmi Hmv Hd Hdi Hdv Hy).
    rewrite Hyi, Hmi, Hdi. simpl. rewrite Hv.
    destruct dt; simpl in *. decompose [and] H. now subst.
Qed.

Lemma int_Raise s e : Py.int s = Raise e -> e = ValueError.
Proof.
  unfold Py.int. destruct (strip s); [congruence|].
  destruct (int_digits _ _); congruence.
Qed.

Lemma strptime_Raise s e : strptime s = Raise e -> e = ValueError.
Proof.
  unfold strptime.
  destruct (format_regex_match s) as [[[[m d] y] rest]|]; [|congruence].
  destruct rest; [|congruence].
  destruct (Py.int y) eqn:Ey; simpl; [|intros [= <-]; eauto using int_Raise].
  destruct (Py.int m) eqn:Em; simpl; [|intros [= <-]; eauto using int_Raise].
  destruct (Py.int d) eqn:Ed; simpl; [|intros [= <-]; eauto using int_Raise].
  destruct (valid_date _ _ _); congruence.
Qed.

Lemma not_strict_short_month : ~ strict_form "3.15.2024".
Proof.
  intros (m & d & y & Hs & Hm & _).
  destruct m as [|c1 [|c2 [|c3 m]]]; try discriminate Hm.
  simpl in Hs. discriminate Hs.
Qed.

(** C2, as stated, fails: the text "3.15.2024" is not of the form two
    digits, two digits, four digits, yet the extractor accepts it and gives
    the record the date 2024-03-15T00:00:00Z. *)
Lemma C2_counterexample :
  ~ strict_form "3.15.2024" /\
  find row_short_month "span" "ep-published"
  = Some (Tag "span" [class_ "ep-published"] [NavigableString "3.15.2024"]) /\
  extract_info row_short_month
  = Return (mkInfo "/e/the-best-essay" "The Best Essay" "Essay."
              "https://cdn.podcast.app/2.mp3"
              (mkDatetime 2024 3 15 0 0 0 0 (Some utc))).
Proof.
  split; [exact not_strict_short_month|]. split; reflexivity.
Qed.

(** C2, amended. Date parsing follows [strptime] with the format
    [%m.%d.%Y]: "03.15.2024" gives 2024-03-15T00:00:00Z and "2024-03-15" is
    refused, but "3.15.2024" is accepted with the same result.  The texts
    accepted are exactly those made of a month of one or two digits, a dot,
    a day of one or two digits (or a space and a digit), a dot and a year of
    four digits that name a date of the calendar; every other text raises
    [ValueError], and extraction of the row raises with it. *)
Theorem C2_date_parsing_lenient :
  (d <- strptime (strip "03.15.2024") ;; Return (replace_tzinfo d utc))
  = Return (mkDatetime 2024 3 15 0 0 0 0 (Some utc)) /\
  (d <- strptime (strip "3.15.2024") ;; Return (replace_tzinfo d utc))
  = Return (mkDatetime 2024 3 15 0 0 0 0 (Some utc)) /\
  strptime (strip "2024-03-15") = Raise ValueError /\
  (forall s dt,
      strptime s = Return dt <->
      exists m d y,
        s = m ++ "." ++ d ++ "." ++ y /\
        month_text m /\ day_text d /\ year_text y /\
        Py.int m = Return (month dt) /\ Py.int d = Return (day dt) /\
        Py.int y = Return (year dt) /\
        valid_date (year dt) (month dt) (day dt) = true /\
        hour dt = 0 /\ minute dt = 0 /\ second dt = 0 /\ microsecond dt = 0 /\
        tz dt = None) /\
  (forall s e, strptime s = Raise e -> e = ValueError) /\
  (forall li s txt,
      find li "span" "ep-published" = Some s -> dot_string s = Some txt ->
      raised (strptime (strip txt)) -> raised (extract_info li)).
Proof.
  split; [reflexivity|]. split; [reflexivity|]. split; [reflexivity|].
  split; [exact strptime_Return|]. split; [exact strptime_Raise|].
  intros li s txt Hs Ht Hr. apply extract_info_defective.
  do 5 right. exists s. split; [assumption|]. right. now exists txt.
Qed.

Lemma C2_date_parsing_lenient_witness :
  strptime "12. 5.2024" = Return (mkDatetime 2024 12 5 0 0 0 0 None) /\
  raised (extract_info
            (episode_row "/e/x" [NavigableString "X"] [NavigableString "Y"]
               "2024-03-15" [play_button "https://cdn.podcast.app/3.mp3"])).
Proof.
  destruct C2_date_parsing_lenient as (_ & _ & _ & H1 & _ & H2). split.
  - apply H1. exists "12", " 5", "2024". simpl.
    repeat split; auto. right. now exists "5"%char.
  - apply (H2 _ (Tag "span" [class_ "ep-published"]
                   [NavigableString "2024-03-15"]) "2024-03-15");
      [reflexivity|reflexivity|]. now exists ValueError.
Defined.

(** C8, as stated, fails: a selected row whose description paragraph is
    present but has no content makes extraction raise; no record with an
    empty description is made. *)
Lemma C8_counterexample :
  In row_empty_desc
    (gen_entries (mkResponse 200 "OK" (page [row_empty_desc]))) /\
  find row_empty_desc "p" "ep-row-desc"
  = Some (Tag "p" [class_ "ep-row-desc"] []) /\
  extract_info row_empty_desc = Raise TypeError.
Proof.
  split; [simpl; auto|]. split; reflexivity.
Qed.

(** C8, amended. For every row whose description paragraph is present: a
    record that extraction returns has the [.string] of the paragraph as its
    description; when the paragraph has a [.string] (possibly the empty
    text) and the other four fields are there, extraction returns the record
    with that description; a paragraph without [.string], in particular one
    with no content, makes extraction raise. *)
Theorem C8_description_text :
  forall li p : PageElement,
    find li "p" "ep-row-desc" = Some p ->
    (forall r, extract_info li = Return r ->
               dot_string p = Some (description r)) /\
    (forall txt i t e dt,
        dot_string p = Some txt -> other_fields li i t e dt ->
        extract_info li = Return (mkInfo i t txt e dt)) /\
    (dot_string p = None -> raised (extract_info li)) /\
    (forall n a, p = Tag n a [] -> raised (extract_info li)).
Proof.
  intros li p Hp.
  assert (Hnone : dot_string p = None -> raised (extract_info li)).
  { intros Hn. apply extract_info_defective. do 4 right. left. now exists p. }
  split; [|split; [|split]].
  - intros r Hr. apply extract_info_complete in Hr.
    destruct Hr as (a & h & p' & s & b & txt & dt & _ & _ & _ & _ & E1 & E2
                    & _).
    rewrite Hp in E1. now injection E1 as <-.
  - intros txt i t e dt Htxt (a & h & s & b & txt' & d0 & Ha & Hi & Hh & Ht
                               & Hs & Hs' & Hd & -> & Hb & He).
    apply extract_info_complete.
    exists a, h, p, s, b, txt', d0. simpl. auto 13.
  - exact Hnone.
  - intros n a ->. now apply Hnone.
Qed.

Lemma C8_description_text_witness :
  extract_info row_A = Return info_A /\
  raised (extract_info row_empty_desc).
Proof.
  split.
  - destruct (C8_description_text row_A
                (Tag "p" [class_ "ep-row-desc"]
                   [NavigableString "An essay read aloud."]) eq_refl)
      as (_ & H & _).
    apply (H "An essay read aloud." "/e/how-to-do-great-work"
             "How to Do Great Work" "https://cdn.podcast.app/1.mp3"
             (mkDatetime 2023 1 2 0 0 0 0 (Some utc)) eq_refl).
    do 6 eexists. repeat split; reflexivity.
  - destruct (C8_description_text row_empty_desc
                (Tag "p" [class_ "ep-row-desc"] []) eq_refl)
      as (_ & _ & _ & H).
    now apply (H "p" [class_ "ep-row-desc"]).
Defined.


(** ** The feed assembler *)

Lemma update_nth_last {A} (f : A -> A) l x :
  update_nth (length l) f (l ++ [x])%list = (l ++ [f x])%list.
Proof. induction l as [|y l IH]; simpl; [reflexivity|]. now rewrite IH. Qed.

Lemma with_entries_twice fg a b :
  with_entries (with_entries fg a) b = with_entries fg b.
Proof. reflexivity. Qed.

Lemma on_entry_with_entries fe f fg es :
  on_entry fe f (with_entries fg es) = with_entries fg (update_nth fe f es).
Proof. reflexivity. Qed.

Lemma fg_author_with_entries fg es :
  fg_author (with_entries fg es) = fg_author fg.
Proof. reflexivity. Qed.

Lemma add_feed_item_eq fg info w :
  add_feed_item fg info w =
  (match tz (date info) with
   | Some _ =>
       Return (with_entries fg
                 (fg_entries fg
                    ++ [item_entry (fg_author fg) info
                          (clock w (S (reads w)))]))
   | None => Raise ValueError
   end, ticks 2 w).
Proof.
  unfold add_feed_item, add_entry, FeedEntry_init, put_entry, iobind, now,
    ret, lift, published.
  unfold ticks. simpl Nat.add.
  cbn [clock reads stdout rss_error feed_file].
  destruct (tz (date info)); [|reflexivity].
  repeat rewrite ?on_entry_with_entries, ?fg_author_with_entries,
    ?update_nth_last.
  unfold item_entry. destruct (fg_author fg); reflexivity.
Qed.

(** C7. For every record appended to a feed, the new entry is the last of
    the feed; its identifier is the base URL followed by the id of the
    record, and its only link has the enclosure URL of the record as [href]
    and the relation "alternate".  The identifier is made from the field
    [id], the link from the field [enc]. *)
Theorem C7_entry_id_and_link :
  forall (fg fg' : FeedGenerator) (info : Info) (w w' : World),
    add_feed_item fg info w = (Return fg', w') ->
    exists e,
      fg_entries fg' = (fg_entries fg ++ [e])%list /\
      fe_id e = Some (BASE_URL ++ id info) /\
      fe_link e = [mkLink (enc info) "alternate"].
Proof.
  intros fg fg' info w w'. rewrite add_feed_item_eq.
  destruct (tz (date info)); [|discriminate].
  intros [= <- _].
  exists (item_entry (fg_author fg) info (clock w (S (reads w)))).
  repeat split.
Qed.

Lemma C7_entry_id_and_link_witness :
  exists e,
    fe_id e = Some "https://podcast.app/e/how-to-do-great-work" /\
    fe_link e = [mkLink "https://cdn.podcast.app/1.mp3" "alternate"].
Proof.
  destruct (C7_entry_id_and_link (base_feed 0 0 [])
              (base_feed 0 0 [entry_of info_A 6]) info_A
              (world_at 5) (ticks 2 (world_at 5)) eq_refl)
    as (e & _ & H1 & H2).
  exists e. split; assumption.
Defined.

Lemma extract_info_tz li info :
  extract_info li = Return info -> tz (date info) = Some utc.
Proof.
  intros H. apply extract_info_complete in H.
  destruct H as (a & h & p & s & b & txt & dt & H).
  decompose [and] H.
  match goal with E : date info = _ |- _ => now rewrite E end.
Qed.

Lemma extract_all_Return lis : forall infos,
  extract_all lis = Return infos <->
  Forall2 (fun li info => extract_info li = Return info) lis infos.
Proof.
  induction lis as [|li lis IH]; intros infos; simpl.
  - split; [intros [= <-]; constructor|intros H; now inversion H].
  - destruct (extract_info li) as [info|e] eqn:E; simpl.
    + destruct (extract_all lis) as [infos'|e] eqn:E'; simpl.
      * split.
        -- intros [= <-]. constructor; [assumption|]. now apply IH.
        -- intros H. inversion H as [|? i ? is' H1 H2]; subst.
           apply IH in H2. congruence.
      * split; [discriminate|]. intros H.
        inversion H as [|? i ? is' H1 H2]; subst. apply IH in H2.
        discriminate.
    + split; [discriminate|]. intros H.
      inversion H as [|? i ? is' H1 H2]; subst. congruence.
Qed.

Lemma extract_all_Raise lis e :
  extract_all lis = Raise e ->
  exists li, In li lis /\ extract_info li = Raise e.
Proof.
  induction lis as [|li lis IH]; simpl; [discriminate|].
  destruct (extract_info li) as [info|e'] eqn:E; simpl.
  - destruct (extract_all lis) as [infos'|e'] eqn:E'; simpl; [discriminate|].
    intros [= <-]. destruct (IH eq_refl) as (li' & Hin & H).
    exists li'. auto.
  - intros [= <-]. exists li. auto.
Qed.

Lemma extract_all_raised lis li :
  In li lis -> raised (extract_info li) -> raised (extract_all lis).
Proof.
  intros Hin [e He]. destruct (extract_all lis) as [infos|e'] eqn:E;
    [|now exists e'].
  apply extract_all_Return in E. exfalso.
  induction E as [|x i l is' H1 H2 IH]; [destruct Hin|].
  destruct Hin as [<-|Hin]; [congruence|auto].
Qed.

Lemma stamped_rows lis : forall infos c k,
  extract_all lis = Return infos ->
  Forall2 (fun li e => exists info t,
               extract_info li = Return info /\ e = entry_of info t)
    lis (stamped c k infos).
Proof.
  intros infos c k H. apply extract_all_Return in H. revert k.
  induction H as [|li info lis infos H1 H2 IH]; intros k; simpl;
    constructor; [|apply IH].
  exists info, (c k). auto.
Qed.

Lemma stamped_erased c k infos :
  map erase_entry_updated (stamped c k infos)
  = map (fun info => erase_entry_updated (entry_of info 0)) infos.
Proof.
  revert k. induction infos as [|i infos IH]; intros k; simpl;
    [reflexivity|]. now rewrite IH.
Qed.

Lemma stamped_updated c infos : forall k n e,
  nth_error (stamped c k infos) n = Some e ->
  fe_updated e = Some (c (2 * n + k)%nat).
Proof.
  induction infos as [|i infos IH]; intros k n e; simpl.
  - destruct n; discriminate.
  - destruct n as [|n]; simpl.
    + now intros [= <-].
    + intros H. apply IH in H. rewrite H. f_equal. f_equal. lia.
Qed.

Lemma stamped_ext c1 c2 k1 k2 infos :
  (forall n, c1 (n + k1)%nat = c2 (n + k2)%nat) ->
  stamped c1 k1 infos = stamped c2 k2 infos.
Proof.
  revert k1 k2. induction infos as [|i infos IH]; intros k1 k2 H; simpl;
    [reflexivity|].
  pose proof (H O) as H0. simpl in H0. rewrite H0. f_equal. apply IH.
  intros n. specialize (H (S (S n))). now rewrite <- !plus_n_Sm.
Qed.

(** ** The run *)

Lemma iobind_Return {A B} (c : IO A) (k : A -> IO B) w a w' :
  c w = (Return a, w') -> iobind c k w = k a w'.
Proof. unfold iobind. now intros ->. Qed.

Lemma iobind_Raise {A B} (c : IO A) (k : A -> IO B) w e w' :
  c w = (Raise e, w') -> iobind c k w = (Raise e, w').
Proof. unfold iobind. now intros ->. Qed.

Lemma ticks_ticks n m w : ticks n (ticks m w) = ticks (n + m) w.
Proof. unfold ticks. simpl. now rewrite Nat.add_assoc. Qed.

Lemma add_items_Return lis : forall fg w infos,
  fg_author fg = None ->
  extract_all lis = Return infos ->
  add_items lis fg w =
  (Return (with_entries fg
             (fg_entries fg ++ stamped (clock w) (S (reads w)) infos)),
   ticks (2 * length infos) w).
Proof.
  induction lis as [|li lis IH]; intros fg w infos Ha; simpl.
  - intros [= <-]. simpl. rewrite app_nil_r. now destruct fg, w.
  - destruct (extract_info li) as [info|e] eqn:E; simpl; [|discriminate].
    destruct (extract_all lis) as [infos'|e] eqn:E'; simpl; [|discriminate].
    intros [= <-].
    rewrite (iobind_Return _ _ w info w) by reflexivity.
    rewrite (iobind_Return _ _ w
               (with_entries fg
                  (fg_entries fg
                     ++ [item_entry (fg_author fg) info
                           (clock w (S (reads w)))]))
               (ticks 2 w)).
    2:{ rewrite add_feed_item_eq. now rewrite (extract_info_tz li info E). }
    rewrite (IH _ _ infos') by (assumption || reflexivity).
    rewrite with_entries_twice, ticks_ticks, Ha.
    simpl. rewrite <- app_assoc. simpl.
    f_equal. unfold ticks. f_equal. lia.
Qed.

Lemma add_items_Raise lis : forall fg w e,
  extract_all lis = Raise e ->
  exists n, add_items lis fg w = (Raise e, ticks n w).
Proof.
  induction lis as [|li lis IH]; intros fg w e; simpl; [discriminate|].
  destruct (extract_info li) as [info|e'] eqn:E; simpl.
  - destruct (extract_all lis) as [infos'|e'] eqn:E'; simpl; [discriminate|].
    intros [= <-].
    rewrite (iobind_Return _ _ w info w) by reflexivity.
    rewrite (iobind_Return _ _ w
               (with_entries fg
                  (fg_entries fg
                     ++ [item_entry (fg_author fg) info
                           (clock w (S (reads w)))]))
               (ticks 2 w)).
    2:{ rewrite add_feed_item_eq. now rewrite (extract_info_tz li info E). }
    destruct (IH (with_entries fg
                    (fg_entries fg
                       ++ [item_entry (fg_author fg) info
                             (clock w (S (reads w)))]))
                (ticks 2 w) e' eq_refl) as [n ->].
    exists (n + 2)%nat. now rewrite ticks_ticks.
  - intros [= <-]. exists O.
    rewrite (iobind_Raise _ _ w e' w) by reflexivity. now destruct w.
Qed.

Lemma create_base_feed_eq w :
  create_base_feed w =
  (Return (base_feed (clock w (reads w)) (clock w (S (reads w))) []),
   ticks 2 w).
Proof. reflexivity. Qed.

Lemma main_fetch_failed resp w :
  ok resp = false ->
  main resp w =
  (Return (Some 1),
   logged [(CRITICAL, "PG pages download failed: "
                      ++ str_of_int (status_code resp) ++ " " ++ reason resp)]
     w).
Proof. unfold main. now intros ->. Qed.

Lemma main_extraction_failed resp w e :
  ok resp = true ->
  extract_all (gen_entries resp) = Raise e ->
  exists n,
    main resp w = (Raise e, ticks n (logged (log_retrieved ++ log_created) w)).
Proof.
  intros Hok He.
  destruct (add_items_Raise (gen_entries resp)
              (base_feed (clock w (reads w)) (clock w (S (reads w))) [])
              (logged log_created (ticks 2 (logged log_retrieved w))) e He)
    as [n Hn].
  exists (n + 2)%nat.
  unfold main. rewrite Hok. change (negb true) with false. cbv iota.
  rewrite (iobind_Return _ _ w tt (logged log_retrieved w)) by reflexivity.
  rewrite (iobind_Return _ _ _ _ _ (create_base_feed_eq _)).
  rewrite (iobind_Return _ _ _ tt
             (logged log_created (ticks 2 (logged log_retrieved w))))
    by reflexivity.
  rewrite (iobind_Raise _ _ _ _ _ Hn).
  f_equal. unfold ticks, logged. simpl.
  f_equal; [lia|now rewrite <- ?app_assoc].
Qed.

(** The world at the end of the loop of a run that extracted [infos]. *)
Lemma main_after_loop resp w infos :
  ok resp = true ->
  extract_all (gen_entries resp) = Return infos ->
  main resp w =
  (write_feed
     (base_feed (clock w (reads w)) (clock w (S (reads w)))
        (stamped (clock w) (3 + reads w) infos)) ;;;
   log INFO "Feed written to disk" ;;;
   ret None)
    (ticks (2 * length infos + 2)
       (logged (log_retrieved ++ log_created ++ log_added) w)).
Proof.
  intros Hok He. unfold main. rewrite Hok. change (negb true) with false. cbv iota.
  rewrite (iobind_Return _ _ w tt (logged log_retrieved w)) by reflexivity.
  rewrite (iobind_Return _ _ _ _ _ (create_base_feed_eq _)).
  rewrite (iobind_Return _ _ _ tt
             (logged log_created (ticks 2 (logged log_retrieved w))))
    by reflexivity.
  rewrite (iobind_Return _ _ _ _ _
             (add_items_Return (gen_entries resp)
                (base_feed (clock w (reads w)) (clock w (S (reads w))) [])
                (logged log_created (ticks 2 (logged log_retrieved w)))
                infos eq_refl He)).
  rewrite (iobind_Return _ _ _ tt
             (logged log_added
                (ticks (2 * length infos)
                   (logged log_created (ticks 2 (logged log_retrieved w))))))
    by reflexivity.
  f_equal. unfold ticks, logged. simpl.
  f_equal; [lia|now rewrite <- ?app_assoc].
Qed.

Lemma main_written resp w infos :
  ok resp = true ->
  extract_all (gen_entries resp) = Return infos ->
  rss_error w
    (base_feed (clock w (reads w)) (clock w (S (reads w)))
       (stamped (clock w) (3 + reads w) infos)) = None ->
  main resp w =
  (Return None,
   logged log_done
     (written
        (base_feed (clock w (reads w)) (clock w (S (reads w)))
           (stamped (clock w) (3 + reads w) infos))
        (ticks (2 * length infos + 2)
           (logged (log_retrieved ++ log_created ++ log_added) w)))).
Proof.
  intros Hok He Hw. rewrite (main_after_loop resp w infos Hok He).
  unfold write_feed, rss_file, iobind, log, ret, logged, written, ticks.
  simpl in *. now rewrite Hw.
Qed.

Lemma main_write_failed resp w infos e :
  ok resp = true ->
  extract_all (gen_entries resp) = Return infos ->
  rss_error w
    (base_feed (clock w (reads w)) (clock w (S (reads w)))
       (stamped (clock w) (3 + reads w) infos)) = Some e ->
  main resp w =
  (Raise e,
   ticks (2 * length infos + 2)
     (logged (log_retrieved ++ log_created ++ log_added) w)).
Proof.
  intros Hok He Hw. rewrite (main_after_loop resp w infos Hok He).
  unfold write_feed, rss_file, iobind, log, ret, logged, written, ticks.
  simpl in *. now rewrite Hw.
Qed.

(** The four ways a run ends. *)
Lemma main_cases resp w :
  (ok resp = false /\
   main resp w =
   (Return (Some 1),
    logged [(CRITICAL, "PG pages download failed: "
                       ++ str_of_int (status_code resp) ++ " "
                       ++ reason resp)] w))
  \/ (ok resp = true /\
      exists e n,
        extract_all (gen_entries resp) = Raise e /\
        main resp w
        = (Raise e, ticks n (logged (log_retrieved ++ log_created) w)))
  \/ (ok resp = true /\
      exists infos e,
        extract_all (gen_entries resp) = Return infos /\
        main resp w
        = (Raise e,
           ticks (2 * length infos + 2)
             (logged (log_retrieved ++ log_created ++ log_added) w)))
  \/ (ok resp = true /\
      exists infos,
        extract_all (gen_entries resp) = Return infos /\
        main resp w
        = (Return None,
           logged log_done
             (written
                (base_feed (clock w (reads w)) (clock w (S (reads w)))
                   (stamped (clock w) (3 + reads w) infos))
                (ticks (2 * length infos + 2)
                   (logged (log_retrieved ++ log_created ++ log_added) w))))).
Proof.
  destruct (ok resp) eqn:Hok.
  - right. destruct (extract_all (gen_entries resp)) as [infos|e] eqn:He.
    + right.
      destruct (rss_error w
                  (base_feed (clock w (reads w)) (clock w (S (reads w)))
                     (stamped (clock w) (3 + reads w) infos)))
        as [e|] eqn:Hw.
      * left. split; [reflexivity|]. exists infos, e.
        split; [reflexivity|]. now apply main_write_failed.
      * right. split; [reflexivity|]. exists infos. split; [reflexivity|].
        now apply main_written.
    + left. split; [reflexivity|].
      destruct (main_extraction_failed resp w e Hok He) as [n Hn].
      now exists e, n.
  - left. split; [reflexivity|]. now apply main_fetch_failed.
Qed.

Lemma ok_iff resp : ok resp = true <-> ~ (400 <= status_code resp < 600).
Proof.
  unfold ok, http_error.
  rewrite negb_true_iff, orb_false_iff, !andb_false_iff, !Z.leb_gt, !Z.ltb_ge.
  lia.
Qed.

(** C1, as stated, fails: a response with status 300 is not in the 2xx
    class, yet the run goes on as after a successful fetch: nothing critical
    is logged, the feed file is written and the exit status is 0. *)
Lemma C1_counterexample :
  ~ (200 <= status_code resp_300 < 300) /\
  exit_status (fst (main resp_300 (world_at 0))) = 0 /\
  feed_file (snd (main resp_300 (world_at 0))) = Some (base_feed 0 1 []) /\
  existsb is_critical (stdout (snd (main resp_300 (world_at 0)))) = false.
Proof.
  split; [simpl; lia|]. repeat split.
Qed.

(** C1, amended. The run treats the fetch as successful exactly when
    [Response.ok] holds, that is when the status code is not in 400..599
    (every 2xx status is among these).  For a status in 400..599 the run
    logs one critical record made of the status code and the reason phrase,
    returns 1 as its exit status and leaves the feed file as it was.
    Otherwise it logs that the pages were retrieved and nothing critical. *)
Theorem C1_fetch_status :
  forall (resp : Response) (w : World),
    (ok resp = true <-> ~ (400 <= status_code resp < 600)) /\
    (200 <= status_code resp < 300 -> ok resp = true) /\
    (ok resp = false ->
     main resp w
     = (Return (Some 1),
        logged [(CRITICAL, "PG pages download failed: "
                           ++ str_of_int (status_code resp) ++ " "
                           ++ reason resp)] w) /\
     exit_status (fst (main resp w)) = 1 /\
     feed_file (snd (main resp w)) = feed_file w) /\
    (ok resp = true ->
     exists rest,
       stdout (snd (main resp w))
       = (stdout w ++ (INFO, "Download pages retrieved.") :: rest)%list /\
       existsb is_critical rest = false).
Proof.
  intros resp w. split; [apply ok_iff|].
  split; [intros H; apply ok_iff; lia|]. split.
  - intros Hok. rewrite (main_fetch_failed resp w Hok). repeat split.
  - intros Hok.
    destruct (main_cases resp w)
      as [[H _]|[(_ & e & n & _ & ->)|[(_ & infos & e & _ & ->)
                                      |(_ & infos & _ & ->)]]].
    + congruence.
    + exists log_created. split; reflexivity.
    + exists (log_created ++ log_added)%list. split; reflexivity.
    + exists (log_created ++ log_added ++ log_done)%list. split; [|reflexivity].
      simpl. now rewrite <- app_assoc.
Qed.

Lemma C1_fetch_status_witness :
  main resp_503 (world_at 0)
  = (Return (Some 1),
     logged [(CRITICAL, "PG pages download failed: 503 Service Unavailable")]
       (world_at 0)) /\
  exit_status (fst (main resp_503 (world_at 0))) = 1 /\
  feed_file (snd (main resp_503 (world_at 0))) = None.
Proof.
  destruct (C1_fetch_status resp_503 (world_at 0)) as (_ & _ & H & _).
  exact (H eq_refl).
Defined.

(** C4. Extraction failure is all-or-nothing for the run.  When extraction
    of a selected row raises, the exception of the first such row leaves
    [main] uncaught, the process ends with a non-zero status, and the feed
    file is what it was before the run.  In every run the feed file is
    either left as it was or replaced by the feed made of all the rows. *)
Theorem C4_extraction_failure_aborts :
  forall (resp : Response) (w : World),
    (forall li,
        ok resp = true -> In li (gen_entries resp) ->
        raised (extract_info li) ->
        exists e li',
          In li' (gen_entries resp) /\ extract_info li' = Raise e /\
          fst (main resp w) = Raise e /\
          exit_status (fst (main resp w)) <> 0 /\
          feed_file (snd (main resp w)) = feed_file w) /\
    (feed_file (snd (main resp w)) = feed_file w \/
     exists infos fg,
       extract_all (gen_entries resp) = Return infos /\
       length (fg_entries fg) = length (gen_entries resp) /\
       fst (main resp w) = Return None /\
       feed_file (snd (main resp w)) = Some fg).
Proof.
  intros resp w. split.
  - intros li Hok Hin Hr.
    destruct (extract_all_raised _ _ Hin Hr) as [e He].
    destruct (extract_all_Raise _ _ He) as (li' & Hin' & He').
    destruct (main_extraction_failed resp w e Hok He) as [n Hn].
    exists e, li'. rewrite Hn. repeat split; auto. simpl. lia.
  - destruct (main_cases resp w)
      as [[_ ->]|[(_ & e & n & _ & ->)|[(_ & infos & e' & _ & ->)
                                       |(_ & infos & He & ->)]]];
      try (left; reflexivity).
    right. eexists infos, _. split; [assumption|].
    split; [|split; reflexivity]. simpl.
    pose proof (stamped_rows _ _ (clock w) (S (S (S (reads w)))) He) as H.
    clear He. revert H.
    generalize (stamped (clock w) (S (S (S (reads w)))) infos).
    generalize (gen_entries resp). intros l1 l2 H.
    induction H; simpl; congruence.
Qed.

Lemma C4_extraction_failure_aborts_witness :
  exists e,
    extract_info row_B = Raise e /\
    fst (main resp_A_B (world_at 0)) = Raise e /\
    exit_status (fst (main resp_A_B (world_at 0))) <> 0 /\
    feed_file (snd (main resp_A_B (world_at 0))) = None.
Proof.
  destruct (proj1 (C4_extraction_failure_aborts resp_A_B (world_at 0))
              row_B eq_refl)
    as (e & li' & Hin & He & H1 & H2 & H3).
  - simpl. auto.
  - now exists AttributeError.
  - exists e. repeat split; try assumption.
    destruct Hin as [<-|[<-|[]]]; [discriminate He|exact He].
Defined.

(** C6. Order preservation: when the run completes, the feed written to the
    file has, position by position, one entry for each row the entry
    selector produced, made from the record extracted from that row: same
    length, same order, nothing sorted, nothing merged or dropped. *)
Theorem C6_order_preserved :
  forall (resp : Response) (w : World),
    fst (main resp w) = Return None ->
    exists fg,
      feed_file (snd (main resp w)) = Some fg /\
      Forall2 (fun li e => exists info t,
                   extract_info li = Return info /\ e = entry_of info t)
        (gen_entries resp) (fg_entries fg).
Proof.
  intros resp w.
  destruct (main_cases resp w)
    as [[_ ->]|[(_ & e & n & _ & ->)|[(_ & infos & e' & _ & ->)
                                     |(_ & infos & He & ->)]]];
    try discriminate.
  intros _. eexists. split; [reflexivity|]. simpl.
  now apply stamped_rows.
Qed.

Lemma C6_order_preserved_witness :
  exists fg,
    feed_file (snd (main resp_listing (world_at 100))) = Some fg /\
    Forall2 (fun li e => exists info t,
                 extract_info li = Return info /\ e = entry_of info t)
      [row_A; row_short_month; row_A] (fg_entries fg).
Proof.
  exact (C6_order_preserved resp_listing (world_at 100) eq_refl).
Defined.

Example feed_ids_of_listing :
  option_map (fun fg => map fe_id (fg_entries fg))
    (feed_file (snd (main resp_listing (world_at 100))))
  = Some [ Some "https://podcast.app/e/how-to-do-great-work";
           Some "https://podcast.app/e/the-best-essay";
           Some "https://podcast.app/e/how-to-do-great-work" ].
Proof. reflexivity. Qed.

(** C9, as stated, fails: two runs over the same listing at different
    times write feeds that differ in more than the "updated" field of their
    entries, namely in the date stamps the feed constructor took from the
    clock. *)
Lemma C9_counterexample :
  fst (main resp_listing (world_at 0)) = Return None /\
  fst (main resp_listing (world_at 86400)) = Return None /\
  option_map erase_updated (feed_file (snd (main resp_listing (world_at 0))))
  <> option_map erase_updated
       (feed_file (snd (main resp_listing (world_at 86400)))).
Proof.
  split; [vm_compute; reflexivity|]. split; [vm_compute; reflexivity|].
  intros H. apply (f_equal (option_map fg_lastBuildDate)) in H.
  vm_compute in H. discriminate H.
Qed.

(** C9, amended. Two completed runs over the same response write feeds
    that are equal once every instant read from the wall clock is blanked:
    the two date stamps of the feed constructor and the "updated" field of
    each entry.  These fields hold readings of the clock of their own run,
    in the order the feed was assembled: the first two go to the feed, then
    for each entry one reading goes to the constructor of the entry and the
    next one is its "updated" stamp.  When the two clocks give the same
    readings the two files are the same. *)
Theorem C9_two_runs :
  forall (resp : Response) (w1 w2 : World),
    fst (main resp w1) = Return None ->
    fst (main resp w2) = Return None ->
    exists f1 f2,
      feed_file (snd (main resp w1)) = Some f1 /\
      feed_file (snd (main resp w2)) = Some f2 /\
      erase_clock f1 = erase_clock f2 /\
      fg_updated f1 = clock w1 (reads w1) /\
      fg_lastBuildDate f1 = clock w1 (1 + reads w1)%nat /\
      (forall n e, nth_error (fg_entries f1) n = Some e ->
                   fe_updated e = Some (clock w1 (2 * n + (3 + reads w1))%nat)) /\
      fg_updated f2 = clock w2 (reads w2) /\
      fg_lastBuildDate f2 = clock w2 (1 + reads w2)%nat /\
      (forall n e, nth_error (fg_entries f2) n = Some e ->
                   fe_updated e = Some (clock w2 (2 * n + (3 + reads w2))%nat)) /\
      ((forall n, clock w1 (n + reads w1)%nat = clock w2 (n + reads w2)%nat) ->
       f1 = f2).
Proof.
  intros resp w1 w2.
  destruct (main_cases resp w1)
    as [[_ ->]|[(_ & e & n & _ & ->)|[(_ & infos & e' & _ & ->)
                                     |(_ & infos1 & He1 & ->)]]];
    try discriminate.
  destruct (main_cases resp w2)
    as [[_ ->]|[(_ & e & n & _ & ->)|[(_ & infos & e' & _ & ->)
                                     |(_ & infos2 & He2 & ->)]]];
    try discriminate.
  intros _ _. rewrite He1 in He2. injection He2 as <-.
  eexists. eexists. split; [reflexivity|]. split; [reflexivity|].
  split.
  { unfold erase_clock, base_feed. simpl. now rewrite !stamped_erased. }
  do 2 (split; [reflexivity|]).
  split; [intros n e; apply stamped_updated|].
  do 2 (split; [reflexivity|]).
  split; [intros n e; apply stamped_updated|].
  intros H. unfold base_feed.
  pose proof (H O) as H0. pose proof (H 1%nat) as H1. simpl in H0, H1.
  rewrite H0, H1.
  rewrite (stamped_ext (clock w1) (clock w2) (3 + reads w1) (3 + reads w2)).
  - reflexivity.
  - intros n. specialize (H (n + 3)%nat).
    now rewrite <- !Nat.add_assoc in H.
Qed.

Lemma C9_two_runs_witness :
  exists f1 f2,
    feed_file (snd (main resp_listing (world_at 0))) = Some f1 /\
    feed_file (snd (main resp_listing (world_at 86400))) = Some f2 /\
    erase_clock f1 = erase_clock f2 /\
    (forall n e, nth_error (fg_entries f1) n = Some e ->
                 fe_updated e = Some (0 + Z.of_nat (2 * n + 3))) /\
    (forall n e, nth_error (fg_entries f2) n = Some e ->
                 fe_updated e = Some (86400 + Z.of_nat (2 * n + 3))).
Proof.
  destruct (C9_two_runs resp_listing (world_at 0) (world_at 86400)
              eq_refl eq_refl)
    as (f1 & f2 & H1 & H2 & H3 & _ & _ & H4 & _ & _ & H5 & _).
  exists f1, f2. split; [exact H1|]. split; [exact H2|]. split; [exact H3|].
  split; [exact H4|exact H5].
Defined.


(** ** Further properties of the run *)

Lemma extract_all_raised_iff lis :
  raised (extract_all lis) <->
  exists li, In li lis /\ raised (extract_info li).
Proof.
  split.
  - intros [e He]. destruct (extract_all_Raise _ _ He) as (li & Hin & H).
    exists li. split; [assumption|now exists e].
  - intros (li & Hin & H). now apply (extract_all_raised lis li).
Qed.

(** X1. Whatever the page holds, the feed a completed run writes carries
    the same feed-level data: identifier, title, the single "self" link,
    logo, language "en", description and documentation link, and no
    author. *)
Theorem X1_feed_metadata_fixed :
  forall (resp : Response) (w : World),
    fst (main resp w) = Return None ->
    exists fg,
      feed_file (snd (main resp w)) = Some fg /\
      metadata fg
      = (Some PG_URL, Some "Paul Graham Essays (Audio)",
         [mkLink "https://podcast.app/paul-graham-essays-audio-p1755465/"
            "self"],
         Some "https://podcast-api-images.s3.amazonaws.com/podcast_logo_1755465_300x300.jpg",
         Some "en", Some "PG Podcast",
         Some "http://www.rssboard.org/rss-specification", None).
Proof.
  intros resp w.
  destruct (main_cases resp w)
    as [[_ ->]|[(_ & e & n & _ & ->)|[(_ & infos & e' & _ & ->)
                                     |(_ & infos & He & ->)]]];
    try discriminate.
  intros _. eexists. split; reflexivity.
Qed.

Lemma X1_feed_metadata_fixed_witness :
  exists fg,
    feed_file (snd (main resp_listing (world_at 7))) = Some fg /\
    fg_language fg = Some "en" /\ fg_author fg = None.
Proof.
  destruct (X1_feed_metadata_fixed resp_listing (world_at 7) eq_refl)
    as (fg & H1 & H2).
  exists fg. split; [exact H1|]. unfold metadata in H2.
  injection H2 as _ _ _ _ H5 _ _ H8. split; assumption.
Defined.

(** X2. The log only grows, and what a run adds tells how far it got: one
    critical record when the fetch failed; the first two milestones when
    extraction of a row raised; the first three when the rows were all added
    but writing the feed raised; all four when the run completed. *)
Theorem X2_log_milestones :
  forall (resp : Response) (w : World),
    exists l,
      stdout (snd (main resp w)) = (stdout w ++ l)%list /\
      match fst (main resp w) with
      | Return (Some _) => ok resp = false /\ l = [critical_record resp]
      | Return None =>
          l = (log_retrieved ++ log_created ++ log_added ++ log_done)%list
      | Raise e =>
          ((exists li, In li (gen_entries resp) /\ raised (extract_info li))
           /\ l = (log_retrieved ++ log_created)%list)
          \/ ((forall li, In li (gen_entries resp) ->
                          ~ raised (extract_info li))
              /\ l = (log_retrieved ++ log_created ++ log_added)%list)
      end.
Proof.
  intros resp w.
  destruct (main_cases resp w)
    as [[Hok ->]|[(_ & e & n & He & ->)|[(_ & infos & e' & He & ->)
                                        |(_ & infos & He & ->)]]].
  - exists [critical_record resp]. split; [reflexivity|]. simpl. auto.
  - exists (log_retrieved ++ log_created)%list. split; [reflexivity|].
    simpl. left. split; [|reflexivity].
    apply extract_all_raised_iff. rewrite He. now exists e.
  - exists (log_retrieved ++ log_created ++ log_added)%list.
    split; [reflexivity|]. simpl. right. split; [|reflexivity].
    intros li Hin Hr.
    assert (H : raised (extract_all (gen_entries resp)))
      by (apply extract_all_raised_iff; now exists li).
    rewrite He in H. destruct H as [x H]. discriminate H.
  - exists (log_retrieved ++ log_created ++ log_added ++ log_done)%list.
    split; [|reflexivity]. simpl. now rewrite <- app_assoc.
Qed.

(** X3. The exit status is 0 or 1.  It is 0 exactly when [main] returned
    normally after the fetch, and then the feed file holds the feed of this
    run; with status 1 the feed file is what it was before the run. *)
Theorem X3_exit_status :
  forall (resp : Response) (w : World),
    (exit_status (fst (main resp w)) = 0 /\
     fst (main resp w) = Return None /\
     exists infos,
       extract_all (gen_entries resp) = Return infos /\
       feed_file (snd (main resp w))
       = Some (base_feed (clock w (reads w)) (clock w (S (reads w)))
                 (stamped (clock w) (3 + reads w) infos)))
    \/ (exit_status (fst (main resp w)) = 1 /\
        fst (main resp w) <> Return None /\
        feed_file (snd (main resp w)) = feed_file w).
Proof.
  intros resp w.
  destruct (main_cases resp w)
    as [[Hok ->]|[(_ & e & n & He & ->)|[(_ & infos & e' & He & ->)
                                        |(_ & infos & He & ->)]]].
  - right. repeat split. discriminate.
  - right. repeat split. discriminate.
  - right. repeat split. discriminate.
  - left. repeat split. now exists infos.
Qed.

(** X4. A page in which no table row has a publication marker is not an
    error: when the fetch succeeded and the feed can be written, the run
    completes with status 0 and replaces the feed file by a feed without
    entries. *)
Theorem X4_empty_listing :
  forall (resp : Response) (w : World),
    ok resp = true ->
    (forall e, In e (descendants (document resp)) -> ~ marked_row e) ->
    (forall fg, rss_error w fg = None) ->
    gen_entries resp = [] /\
    fst (main resp w) = Return None /\
    feed_file (snd (main resp w))
    = Some (base_feed (clock w (reads w)) (clock w (S (reads w))) []).
Proof.
  intros resp w Hok Hno Hw.
  assert (Hg : gen_entries resp = []).
  { rewrite gen_entries_filter. apply filter_nil_iff. intros e He.
    destruct (selected e) eqn:Hs; [|reflexivity].
    apply selected_iff in Hs. now destruct (Hno e He). }
  split; [assumption|].
  rewrite (main_written resp w []); [split; reflexivity|assumption| |apply Hw].
  now rewrite Hg.
Qed.

Lemma X4_empty_listing_witness :
  gen_entries resp_300 = [] /\
  fst (main (mkResponse 200 "OK" (document resp_300)) (world_at 0))
  = Return None /\
  feed_file (snd (main (mkResponse 200 "OK" (document resp_300)) (world_at 0)))
  = Some (base_feed 0 1 []).
Proof.
  apply (X4_empty_listing (mkResponse 200 "OK" (document resp_300))
           (world_at 0)).
  - reflexivity.
  - intros e [<-|[<-|[]]] [H _]; discriminate H.
  - reflexivity.
Defined.

(** X5. The run does not read the feed file: with another file on disk
    (or none) the result of [main] is the same, and a completed run leaves
    the same feed in the file, nothing of the earlier content being kept. *)
Theorem X5_no_merge :
  forall (resp : Response) (w : World) (prev : option FeedGenerator),
    fst (main resp (with_file prev w)) = fst (main resp w) /\
    stdout (snd (main resp (with_file prev w))) = stdout (snd (main resp w)) /\
    (fst (main resp w) = Return None ->
     feed_file (snd (main resp (with_file prev w)))
     = feed_file (snd (main resp w))).
Proof.
  intros resp w prev.
  destruct (ok resp) eqn:Hok.
  - destruct (extract_all (gen_entries resp)) as [infos|e] eqn:He.
    + destruct (rss_error w
                  (base_feed (clock w (reads w)) (clock w (S (reads w)))
                     (stamped (clock w) (3 + reads w) infos)))
        as [e|] eqn:Hw.
      * rewrite (main_write_failed resp w infos e Hok He Hw).
        rewrite (main_write_failed resp (with_file prev w) infos e Hok He Hw).
        repeat split. discriminate.
      * rewrite (main_written resp w infos Hok He Hw).
        rewrite (main_written resp (with_file prev w) infos Hok He Hw).
        repeat split.
    + destruct (main_extraction_failed resp w e Hok He) as [n1 ->].
      destruct (main_extraction_failed resp (with_file prev w) e Hok He)
        as [n2 ->].
      repeat split. discriminate.
  - rewrite !(main_fetch_failed _ _ Hok). repeat split. discriminate.
Qed.

(** X6. When the rows all extract but the feed cannot be written, the
    exception of the writer leaves [main]: the status is 1, the feed file
    keeps its earlier content, and the log ends with "Articles added to
    feed", without "Feed written to disk". *)
Theorem X6_write_failure :
  forall (resp : Response) (w : World) (e : exn),
    ok resp = true ->
    (forall li, In li (gen_entries resp) -> ~ raised (extract_info li)) ->
    (forall fg, rss_error w fg = Some e) ->
    fst (main resp w) = Raise e /\
    exit_status (fst (main resp w)) = 1 /\
    feed_file (snd (main resp w)) = feed_file w /\
    stdout (snd (main resp w))
    = (stdout w ++ log_retrieved ++ log_created ++ log_added)%list.
Proof.
  intros resp w e Hok Hrows Hw.
  destruct (extract_all (gen_entries resp)) as [infos|e'] eqn:He.
  - rewrite (main_write_failed resp w infos e Hok He (Hw _)). repeat split.
  - exfalso.
    assert (H : raised (extract_all (gen_entries resp)))
      by (rewrite He; now exists e').
    apply extract_all_raised_iff in H. destruct H as (li & Hin & H).
    exact (Hrows li Hin H).
Qed.

Lemma X6_write_failure_witness :
  fst (main resp_listing world_readonly) = Raise OSError /\
  exit_status (fst (main resp_listing world_readonly)) = 1 /\
  feed_file (snd (main resp_listing world_readonly))
  = Some (base_feed 0 0 []).
Proof.
  destruct (X6_write_failure resp_listing world_readonly OSError)
    as (H1 & H2 & H3 & _).
  - reflexivity.
  - intros li [<-|[<-|[<-|[]]]] [e He]; discriminate He.
  - reflexivity.
  - split; [exact H1|]. split; [exact H2|exact H3].
Defined.

(** ** Further properties of the lookups and of the extractor *)

Lemma filter_head_split {A} (f : A -> bool) l : forall x r,
  filter f l = x :: r ->
  exists l1 l2,
    l = (l1 ++ x :: l2)%list /\ (forall y, In y l1 -> f y = false) /\
    f x = true /\ r = filter f l2.
Proof.
  induction l as [|y l IH]; intros x r; simpl; [discriminate|].
  destruct (f y) eqn:E.
  - intros [= <- <-]. exists [], l. simpl. repeat split; auto.
    intros z [].
  - intros H. destruct (IH _ _ H) as (l1 & l2 & -> & H1 & H2 & H3).
    exists (y :: l1), l2. simpl. repeat split; auto.
    intros z [<-|Hz]; auto.
Qed.

(** X7. [find] gives the first matching element in document order: the
    descendants before it do not match, whatever comes after it. *)
Theorem X7_find_first :
  forall (li d : PageElement) (n cls : string),
    find li n cls = Some d ->
    exists before after,
      descendants li = (before ++ d :: after)%list /\
      is_element n cls d /\
      forall y, In y before -> ~ is_element n cls y.
Proof.
  intros li d n cls H. unfold find, find_all_class in H.
  destruct (filter _ _) as [|x r] eqn:E; [discriminate|].
  injection H as ->.
  destruct (filter_head_split _ _ _ _ E) as (l1 & l2 & H1 & H2 & H3 & _).
  exists l1, l2. split; [assumption|]. split; [now apply is_element_spec|].
  intros y Hy Hel. apply is_element_spec in Hel.
  rewrite (H2 y Hy) in Hel. discriminate.
Qed.

Lemma X7_find_first_witness :
  find row_two_anchors "a" "ep-item" = Some (Tag "a" [class_ "ep-item"] []) /\
  extract_info row_two_anchors = Raise TypeError.
Proof.
  split; [|reflexivity].
  destruct (X7_find_first row_two_anchors (Tag "a" [class_ "ep-item"] [])
              "a" "ep-item" eq_refl) as (l1 & l2 & _ & _ & _).
  reflexivity.
Defined.

(** X8. The record of an extracted row carries a date of the calendar at
    midnight, in UTC: the time fields are 0, the time zone is UTC whatever
    the page says, and year, month and day pass the range checks. *)
Theorem X8_record_date :
  forall (li : PageElement) (r : Info),
    extract_info li = Return r ->
    tz (date r) = Some utc /\
    hour (date r) = 0 /\ minute (date r) = 0 /\ second (date r) = 0 /\
    microsecond (date r) = 0 /\
    valid_date (year (date r)) (month (date r)) (day (date r)) = true.
Proof.
  intros li r H. apply extract_info_complete in H.
  destruct H as (a & h & p & s & b & txt & dt & H).
  decompose [and] H. clear H.
  match goal with E : date r = _ |- _ => rewrite E end.
  match goal with E : strptime _ = Return dt |- _ =>
    apply strptime_Return in E; destruct E as (m & d & y & E);
    decompose [and] E
  end.
  simpl. auto 6.
Qed.

Lemma X8_record_date_witness :
  tz (date info_A) = Some utc /\ hour (date info_A) = 0 /\
  valid_date (year (date info_A)) (month (date info_A)) (day (date info_A))
  = true.
Proof.
  destruct (X8_record_date row_A info_A eq_refl)
    as (H1 & H2 & _ & _ & _ & H3).
  split; [exact H1|]. split; [exact H2|exact H3].
Defined.

(** X9. Which exception extraction raises follows the order of the
    lookups.  [ValueError]: the first four elements are there and the text
    of the marker does not parse, also when the play button is missing.
    [TypeError]: all five elements are there, the date parses, and an
    attribute or a [.string] is missing.  [AttributeError]: one of the first
    four elements is absent, or the marker has no [.string], or the date
    parses and the play button is absent.  No other exception is raised. *)
Theorem X9_exception_kinds :
  forall li : PageElement,
    (extract_info li = Raise ValueError <->
     (forall n cls, In (n, cls) elements_before_date -> ~ absent n cls li) /\
     exists s txt,
       find li "span" "ep-published" = Some s /\ dot_string s = Some txt /\
       raised (strptime (strip txt))) /\
    (extract_info li = Raise TypeError <->
     exists a h p b dt,
       find li "a" "ep-item" = Some a /\
       find li "h3" "ep-row-title" = Some h /\
       find li "p" "ep-row-desc" = Some p /\
       date_parses li dt /\
       find li "a" "play-btn" = Some b /\
       ((forall v, get a "href" <> Some (AttrStr v)) \/
        dot_string h = None \/ dot_string p = None \/
        (forall v, get b "data-mp3" <> Some (AttrStr v)))) /\
    (extract_info li = Raise AttributeError <->
     (exists n cls, In (n, cls) elements_before_date /\ absent n cls li) \/
     (exists s, find li "span" "ep-published" = Some s /\
                dot_string s = None) \/
     ((exists dt, date_parses li dt) /\ absent "a" "play-btn" li)) /\
    extract_info li <> Raise OSError.
Proof.
  intros li. unfold extract_info, date_parses, elements_before_date.
  destruct (find li "a" "ep-item") as [a|] eqn:Ea.
  2:{ apply find_None_iff in Ea. simpl. repeat split; try discriminate.
      - intros [H _]. exfalso. apply (H "a" "ep-item"); simpl; auto.
      - intros (a & h & p & b & dt & H & _). discriminate H.
      - intros _. left. exists "a", "ep-item". simpl. auto. }
  apply find_Some in Ea. destruct Ea as [Ea1 Ea2].
  destruct (find li "h3" "ep-row-title") as [h|] eqn:Eh.
  2:{ apply find_None_iff in Eh. simpl. repeat split; try discriminate.
      - intros [H _]. exfalso. apply (H "h3" "ep-row-title"); simpl; auto.
      - intros (a' & h & p & b & dt & _ & H & _). discriminate H.
      - intros _. left. exists "h3", "ep-row-title". simpl. auto. }
  apply find_Some in Eh. destruct Eh as [Eh1 Eh2].
  destruct (find li "p" "ep-row-desc") as [p|] eqn:Ep.
  2:{ apply find_None_iff in Ep. simpl. repeat split; try discriminate.
      - intros [H _]. exfalso. apply (H "p" "ep-row-desc"); simpl; auto.
      - intros (a' & h' & p & b & dt & _ & _ & H & _). discriminate H.
      - intros _. left. exists "p", "ep-row-desc". simpl. auto. }
  apply find_Some in Ep. destruct Ep as [Ep1 Ep2].
  destruct (find li "span" "ep-published") as [s|] eqn:Es.
  2:{ apply find_None_iff in Es. simpl. repeat split; try discriminate.
      - intros [H _]. exfalso. apply (H "span" "ep-published"); simpl; auto 6.
      - intros (a' & h' & p' & b & dt & _ & _ & _ & (s & t & H & _) & _).
        discriminate H.
      - intros _. left. exists "span", "ep-published". simpl. auto 6. }
  apply find_Some in Es. destruct Es as [Es1 Es2].
  assert (Hpresent : forall n cls,
             In (n, cls)
               [("a", "ep-item"); ("h3", "ep-row-title"); ("p", "ep-row-desc");
                ("span", "ep-published")] -> ~ absent n cls li).
  { intros n cls [H|[H|[H|[H|[]]]]] Habs; injection H as <- <-.
    - exact (Habs a Ea1 Ea2).
    - exact (Habs h Eh1 Eh2).
    - exact (Habs p Ep1 Ep2).
    - exact (Habs s Es1 Es2). }
  simpl.
  destruct (dot_string s) as [txt|] eqn:Et; simpl.
  2:{ repeat split; try discriminate.
      - intros (_ & s' & t & [= <-] & H & _). congruence.
      - intros (a' & h' & p' & b & dt & _ & _ & _ & (s' & t & [= <-] & H & _)
                & _). congruence.
      - intros _. right. left. now exists s. }
  destruct (strptime (strip txt)) as [dt|e] eqn:Ed; simpl.
  2:{ pose proof (strptime_Raise _ _ Ed) as ->. repeat split; try discriminate.
      - assumption.
      - exists s, txt. split; [reflexivity|]. split; [assumption|].
        now exists ValueError.
      - intros (a' & h' & p' & b & dt & _ & _ & _
                & (s' & t & [= <-] & H1 & H2) & _). congruence.
      - intros [(n & cls & Hin & Habs)|[(s' & [= <-] & H)
                                        |[(dt & s' & t & [= <-] & H1 & H2) _]]].
        + now destruct (Hpresent n cls Hin).
        + congruence.
        + congruence. }
  destruct (find li "a" "play-btn") as [b|] eqn:Eb; simpl.
  2:{ apply find_None_iff in Eb. repeat split; try discriminate.
      - intros (_ & s' & t & [= <-] & H1 & e & H2). congruence.
      - intros (a' & h' & p' & b & dt' & _ & _ & _ & _ & H & _).
        discriminate H.
      - intros _. right. right. split; [|assumption].
        exists dt, s, txt. auto. }
  pose proof (find_Some _ _ _ _ Eb) as [Eb1 Eb2].
  split; [|split; [|split]].
  - split.
    + intros H. exfalso.
      destruct (Info_init _ _ _ _ _) eqn:Ei; [discriminate|].
      unfold Info_init in Ei.
      destruct (get a "href") as [[?|?]|], (dot_string h), (dot_string p),
        (get b "data-mp3") as [[?|?]|]; congruence.
    + intros (_ & s' & t & [= <-] & H1 & e & H2). congruence.
  - split.
    + intros H. exists a, h, p, b, dt. do 3 (split; [reflexivity|]).
      split; [now exists s, txt|]. split; [reflexivity|].
      apply (proj1 (Info_init_raised _ _ _ _ (replace_tzinfo dt utc))).
      rewrite H. now exists TypeError.
    + intros (a' & h' & p' & b' & dt' & [= <-] & [= <-] & [= <-]
              & _ & [= <-] & H).
      apply (proj2 (Info_init_raised _ _ _ _ (replace_tzinfo dt utc))) in H.
      destruct H as [e He]. unfold Info_init in *.
      destruct (get a "href") as [[?|?]|], (dot_string h), (dot_string p),
        (get b "data-mp3") as [[?|?]|]; congruence.
  - split.
    + intros H. exfalso. unfold Info_init in H.
      destruct (get a "href") as [[?|?]|], (dot_string h), (dot_string p),
        (get b "data-mp3") as [[?|?]|]; congruence.
    + intros [(n & cls & Hin & Habs)|[(s' & [= <-] & H)|[_ Habs]]].
      * now destruct (Hpresent n cls Hin).
      * congruence.
      * now destruct (Habs b Eb1 Eb2).
  - unfold Info_init.
    destruct (get a "href") as [[?|?]|], (dot_string h), (dot_string p),
      (get b "data-mp3") as [[?|?]|]; congruence.
Qed.

Lemma X9_exception_kinds_witness :
  extract_info row_bad_date_no_play = Raise ValueError /\
  extract_info row_B = Raise AttributeError.
Proof.
  split.
  - apply (X9_exception_kinds row_bad_date_no_play). split.
    + intros n cls [H|[H|[H|[H|[]]]]] Habs; injection H as <- <-;
        apply find_None_iff in Habs; discriminate Habs.
    + do 2 eexists. split; [reflexivity|]. split; [reflexivity|].
      now exists ValueError.
  - apply (X9_exception_kinds row_B). right. right. split.
    + do 3 eexists. split; [reflexivity|]. split; reflexivity.
    + now apply find_None_iff.
Defined.

(** ** White space around the date text *)

Lemma lstrip_all_space pre t : all_space pre = true -> lstrip (pre ++ t) = lstrip t.
Proof.
  unfold all_space. induction pre as [|c pre IH]; simpl; [reflexivity|].
  rewrite andb_true_iff. intros [-> H]. now apply IH.
Qed.

Lemma rstrip_all_space post : all_space post = true -> rstrip post = "".
Proof.
  unfold all_space. induction post as [|c post IH]; simpl; [reflexivity|].
  rewrite andb_true_iff. intros [-> H]. now rewrite (IH H).
Qed.

Lemma rstrip_app_space t post :
  all_space post = true -> rstrip (t ++ post) = rstrip t.
Proof.
  intros H. induction t as [|c t IH]; simpl.
  - now apply rstrip_all_space.
  - now rewrite IH.
Qed.

Lemma strip_app_space s post :
  all_space post = true -> strip (s ++ post) = strip s.
Proof.
  intros H. unfold strip. induction s as [|c s IH]; simpl.
  - replace (lstrip post) with ""; [reflexivity|].
    clear -H. unfold all_space in H.
    induction post as [|c post IH]; simpl in *; [reflexivity|].
    apply andb_true_iff in H. destruct H as [-> H]. now apply IH.
  - destruct (isspace c); [exact IH|].
    change (String c (s ++ post)) with (String c s ++ post).
    now apply rstrip_app_space.
Qed.

Lemma rstrip_idempotent t : rstrip (rstrip t) = rstrip t.
Proof.
  induction t as [|c t IH]; simpl; [reflexivity|].
  destruct (rstrip t) as [|c' r] eqn:E.
  - destruct (isspace c) eqn:Ec; simpl; [reflexivity|]. now rewrite Ec.
  - simpl in *. now rewrite IH.
Qed.

Lemma lstrip_head t :
  lstrip t = "" \/ exists c r, lstrip t = String c r /\ isspace c = false.
Proof.
  induction t as [|c t IH]; simpl; [now left|].
  destruct (isspace c) eqn:E; [exact IH|]. right. now exists c, t.
Qed.

(** X10. [strip] removes the white space around the text of the marker and
    nothing else: padding a text with white space on either side does not
    change what is parsed, and stripping twice is stripping once. *)
Theorem X10_strip_padding :
  forall pre s post : string,
    all_space pre = true -> all_space post = true ->
    strip (pre ++ s ++ post) = strip s /\
    strptime (strip (pre ++ s ++ post)) = strptime (strip s) /\
    strip (strip s) = strip s.
Proof.
  intros pre s post Hpre Hpost.
  assert (H : strip (pre ++ s ++ post) = strip s).
  { unfold strip at 1. rewrite (lstrip_all_space pre _ Hpre).
    fold (strip (s ++ post)). now apply strip_app_space. }
  split; [exact H|]. split; [now rewrite H|].
  unfold strip.
  destruct (lstrip_head s) as [E|(c & r & E & Hc)]; rewrite E.
  - reflexivity.
  - assert (Hr : exists r', rstrip (String c r) = String c r').
    { simpl. destruct (rstrip r); [rewrite Hc|]; eauto. }
    destruct Hr as [r' Hr]. rewrite Hr. simpl. rewrite Hc.
    rewrite <- Hr. apply rstrip_idempotent.
Qed.

Lemma X10_strip_padding_witness :
  strip "  01.02.2023 " = "01.02.2023".
Proof.
  destruct (X10_strip_padding "  " "01.02.2023" " " eq_refl eq_refl)
    as (H & _).
  exact H.
Defined.

(** ** Classes *)

Lemma existsb_eqb_In wanted l :
  existsb (fun item => String.eqb item wanted) l = true <-> In wanted l.
Proof.
  rewrite existsb_exists. split.
  - intros (x & Hx & E). apply String.eqb_eq in E. now subst.
  - intros H. exists wanted. split; [assumption|apply String.eqb_refl].
Qed.

Lemma no_space_app a b :
  no_space (a ++ b) = no_space a && no_space b.
Proof.
  unfold no_space. induction a as [|c a IH]; simpl; [reflexivity|].
  now rewrite IH, andb_assoc.
Qed.

Lemma join_several_has_space x y l :
  no_space (join " " (x :: y :: l)) = false.
Proof.
  change (join " " (x :: y :: l)) with (x ++ " " ++ join " " (y :: l)).
  rewrite no_space_app. simpl. apply andb_false_r.
Qed.

(** X11. A class is matched as a whole item of the [class] attribute: for a
    class name that is not empty and has no space in it, an element carries
    the class exactly when the name is one of the items of its class list
    (or is the whole attribute, when that is a plain string).  A longer
    class name that merely contains it does not count, and other classes
    beside it do not matter. *)
Theorem X11_class_items :
  forall (cls : string) (e : PageElement),
    cls <> "" -> no_space cls = true ->
    (has_class cls e = true <->
     get e "class" = Some (AttrStr cls) \/
     exists l, get e "class" = Some (AttrList l) /\ In cls l).
Proof.
  intros cls e Hne Hns. unfold has_class, matches_value.
  destruct (get e "class") as [[s|l]|].
  - rewrite String.eqb_eq. split.
    + intros ->. now left.
    + intros [[= ->]|(l & [=] & _)]. reflexivity.
  - rewrite orb_true_iff, existsb_eqb_In, String.eqb_eq. split.
    + intros [H|H].
      * right. now exists l.
      * right. exists l. split; [reflexivity|].
        destruct l as [|x [|y l]].
        -- simpl in H. congruence.
        -- simpl in H. subst. now left.
        -- exfalso. rewrite <- H, join_several_has_space in Hns.
           discriminate.
    + intros [[=]|(l' & [= <-] & H)]. now left.
  - split; [discriminate|]. intros [[=]|(l & [=] & _)].
Qed.

Lemma X11_class_items_witness :
  has_class "play-btn" (play_button "https://cdn.podcast.app/1.mp3") = true /\
  has_class "play" (play_button "https://cdn.podcast.app/1.mp3") = false.
Proof.
  split; [|reflexivity].
  apply (X11_class_items "play-btn"
           (play_button "https://cdn.podcast.app/1.mp3"));
    [discriminate|reflexivity|].
  right. exists ["btn"; "play-btn"]. split; [reflexivity|]. simpl. auto.
Defined.

(** ** Nested rows *)

Lemma PageElement_children_ind (P : PageElement -> Prop) :
  (forall s, P (NavigableString s)) ->
  (forall n a cs, Forall P cs -> P (Tag n a cs)) ->
  forall e, P e.
Proof.
  intros Hs Ht. fix IH 1. intros [s|n a cs].
  - apply Hs.
  - apply Ht.
    exact ((fix go (l : list PageElement) : Forall P l :=
              match l with
              | [] => Forall_nil P
              | c :: l' => Forall_cons c (IH c) (go l')
              end) cs).
Qed.

Lemma In_descendants_Tag x n a cs :
  In x (descendants (Tag n a cs)) <->
  exists c, In c cs /\ (x = c \/ In x (descendants c)).
Proof.
  simpl. rewrite in_flat_map. split; intros (c & Hc & H); exists c;
    (split; [assumption|]); simpl in *; intuition congruence.
Qed.

Lemma descendants_trans c : forall a b,
  In a (descendants b) -> In b (descendants c) -> In a (descendants c).
Proof.
  induction c as [s|n at' cs IH] using PageElement_children_ind;
    intros a b Hab Hbc; [destruct Hbc|].
  apply In_descendants_Tag in Hbc. destruct Hbc as (x & Hx & [->|Hb]);
    apply In_descendants_Tag; exists x; (split; [assumption|]); right.
  - assumption.
  - rewrite Forall_forall in IH. exact (IH x Hx a b Hab Hb).
Qed.

(** X12. Selection looks at all descendants: a table row of the document
    that contains a selected row is selected too, so a row that wraps a
    nested table is yielded as well as the rows inside it. *)
Theorem X12_wrapping_rows :
  forall (resp : Response) (li outer : PageElement),
    In li (gen_entries resp) ->
    In outer (descendants (document resp)) ->
    name_of outer = Some "tr" ->
    In li (descendants outer) ->
    In outer (gen_entries resp).
Proof.
  intros resp li outer Hli Hout Hname Hin.
  rewrite gen_entries_filter in *. apply filter_In in Hli.
  destruct Hli as [_ Hsel]. apply selected_iff in Hsel.
  destruct Hsel as (_ & d & Hd & Hel).
  apply filter_In. split; [assumption|]. apply selected_iff.
  split; [assumption|]. exists d. split; [|assumption].
  exact (descendants_trans outer d li Hd Hin).
Qed.

Lemma X12_wrapping_rows_witness :
  In row_wrapper (gen_entries (mkResponse 200 "OK" (page [row_wrapper]))) /\
  gen_entries (mkResponse 200 "OK" (page [row_wrapper]))
  = [row_wrapper; row_A].
Proof.
  split; [|reflexivity].
  apply (X12_wrapping_rows (mkResponse 200 "OK" (page [row_wrapper]))
           row_A row_wrapper).
  - simpl. auto.
  - simpl. auto 6.
  - reflexivity.
  - simpl. auto.
Defined.

(** X13. When the string of an element is defined, it is the one and only
    string node below the element: a heading or paragraph with two texts,
    or with a text beside a tag, has no [.string]. *)
Theorem X13_string_is_only_text :
  forall (n : string) (a : list (string * attr_value))
         (cs : list PageElement) (s : string),
    dot_string (Tag n a cs) = Some s ->
    strings_of (descendants (Tag n a cs)) = [s].
Proof.
  intros n a cs. revert n a.
  assert (H : forall e s,
             dot_string e = Some s ->
             strings_of (e :: descendants e) = [s]).
  { induction e as [t|n a l IH] using PageElement_children_ind;
      intros s Hs; simpl in *.
    - now injection Hs as ->.
    - destruct l as [|c [|c' l]]; try discriminate.
      inversion IH as [|? ? Hc _]; subst.
      simpl. rewrite app_nil_r. exact (Hc s Hs). }
  intros n a s Hs. exact (H (Tag n a cs) s Hs).
Qed.

Lemma X13_string_is_only_text_witness :
  strings_of
    (descendants (Tag "h3" [] [Tag "b" [] [NavigableString "Title"]]))
  = ["Title"].
Proof.
  exact (X13_string_is_only_text "h3" [] [Tag "b" [] [NavigableString "Title"]]
           "Title" eq_refl).
Defined.

(** ** Further properties of the assembler and of the loop *)

(** X14. Adding an item changes nothing of the feed but its list of
    entries, at whose end one entry is put; the entries already there are
    kept as they are.  The new entry takes title, content and publication
    date from the record; no author is added to a feed without author.  The
    clock is read twice, first by the constructor of the entry and then for
    the "updated" stamp, which is the second reading; log and feed file are
    not touched.  The call raises [ValueError] exactly for a record whose
    date has no time zone. *)
Theorem X14_add_feed_item_appends :
  forall (fg : FeedGenerator) (info : Info) (w : World),
    (tz (date info) = None ->
     add_feed_item fg info w = (Raise ValueError, ticks 2 w)) /\
    (tz (date info) <> None ->
     exists fg' e,
       add_feed_item fg info w = (Return fg', ticks 2 w) /\
       metadata fg' = metadata fg /\
       fg_updated fg' = fg_updated fg /\
       fg_lastBuildDate fg' = fg_lastBuildDate fg /\
       fg_entries fg' = (fg_entries fg ++ [e])%list /\
       fe_title e = Some (title info) /\
       fe_content e = Some (description info) /\
       fe_published e = Some (date info) /\
       fe_updated e = Some (clock w (S (reads w))) /\
       (fg_author fg = None -> fe_author e = [])).
Proof.
  intros fg info w. rewrite add_feed_item_eq. split.
  - now intros ->.
  - destruct (tz (date info)); [intros _|now intros []].
    eexists. eexists. split; [reflexivity|].
    repeat split. intros H. unfold item_entry. now rewrite H.
Qed.

Lemma X14_add_feed_item_appends_witness :
  exists fg',
    add_feed_item (base_feed 0 1 [entry_of info_A 3]) info_A (world_at 5)
    = (Return fg', ticks 2 (world_at 5)) /\
    fg_entries fg' = [entry_of info_A 3; entry_of info_A 6].
Proof.
  destruct (X14_add_feed_item_appends (base_feed 0 1 [entry_of info_A 3])
              info_A (world_at 5)) as [_ H].
  destruct H as (fg' & e & H1 & _); [discriminate|].
  exists fg'. split; [exact H1|].
  rewrite add_feed_item_eq in H1. now injection H1 as <-.
Defined.

Lemma extract_all_first_failure l1 : forall li l2 e,
  (forall x, In x l1 -> ~ raised (extract_info x)) ->
  extract_info li = Raise e ->
  extract_all (l1 ++ li :: l2) = Raise e.
Proof.
  induction l1 as [|x l1 IH]; intros li l2 e Hgood Hbad; simpl.
  - now rewrite Hbad.
  - destruct (extract_info x) as [info|e'] eqn:E.
    + simpl. rewrite (IH li l2 e); [reflexivity| |assumption].
      intros y Hy. apply Hgood. now right.
    + exfalso. apply (Hgood x); [now left|]. rewrite E. now exists e'.
Qed.

(** X15. The exception that ends the run is the one of the first row, in
    document order, whose extraction raises; the rows after it are not
    looked at, whatever is wrong with them, and nothing is written. *)
Theorem X15_first_failure_wins :
  forall (resp : Response) (w : World) (l1 l2 : list PageElement)
         (li : PageElement) (e : exn),
    ok resp = true ->
    gen_entries resp = (l1 ++ li :: l2)%list ->
    (forall x, In x l1 -> ~ raised (extract_info x)) ->
    extract_info li = Raise e ->
    fst (main resp w) = Raise e /\
    feed_file (snd (main resp w)) = feed_file w.
Proof.
  intros resp w l1 l2 li e Hok Hg Hgood Hbad.
  assert (He : extract_all (gen_entries resp) = Raise e).
  { rewrite Hg. now apply extract_all_first_failure. }
  destruct (main_extraction_failed resp w e Hok He) as [n ->].
  split; reflexivity.
Qed.

Lemma X15_first_failure_wins_witness :
  fst (main resp_A_B_bad (world_at 0)) = Raise AttributeError /\
  extract_info row_bad_date_no_play = Raise ValueError.
Proof.
  split; [|reflexivity].
  apply (X15_first_failure_wins resp_A_B_bad (world_at 0) [row_A]
           [row_bad_date_no_play] row_B AttributeError).
  - reflexivity.
  - reflexivity.
  - intros x [<-|[]] [e He]. discriminate He.
  - reflexivity.
Defined.

(** ** February 29 *)

Lemma valid_feb_29 y :
  valid_date y 2 29 = true <->
  1 <= y <= 9999 /\ y mod 4 = 0 /\ (y mod 100 <> 0 \/ y mod 400 = 0).
Proof.
  unfold valid_date, days_in_month, is_leap. simpl.
  destruct (y mod 4 =? 0) eqn:E4; destruct (y mod 100 =? 0) eqn:E100;
    destruct (y mod 400 =? 0) eqn:E400; simpl;
    rewrite ?andb_true_iff, ?andb_true_r, ?Z.leb_le;
    rewrite ?Z.eqb_eq, ?Z.eqb_neq in *; split; intros H;
    try (simpl in H; decompose [and] H; try discriminate;
         repeat split; auto; lia); try lia.
Qed.

(** X16. The day must exist in its month and year: a marker text
    "02.29.yyyy" is accepted exactly when the year is between 1 and 9999 and
    is a leap year (a multiple of 4 that is not a multiple of 100, or a
    multiple of 400); otherwise [strptime] raises [ValueError]. *)
Theorem X16_february_29 :
  forall (y : string) (yv : Z),
    year_text y -> Py.int y = Return yv ->
    (strptime ("02.29." ++ y) = Return (mkDatetime yv 2 29 0 0 0 0 None) <->
     1 <= yv <= 9999 /\ yv mod 4 = 0 /\
     (yv mod 100 <> 0 \/ yv mod 400 = 0)) /\
    (strptime ("02.29." ++ y) = Return (mkDatetime yv 2 29 0 0 0 0 None) \/
     strptime ("02.29." ++ y) = Raise ValueError).
Proof.
  intros y yv Hy Hi.
  assert (E : strptime ("02.29." ++ y)
              = if valid_date yv 2 29
                then Return (mkDatetime yv 2 29 0 0 0 0 None)
                else Raise ValueError).
  { unfold strptime.
    change ("02.29." ++ y) with ("02" ++ "." ++ "29" ++ "." ++ y).
    rewrite (format_regex_match_complete "02" "29" y 2 29);
      try reflexivity; try lia; try assumption.
    - rewrite Hi. reflexivity.
    - split; [now right|reflexivity].
    - left. split; [now right|reflexivity]. }
  rewrite E. rewrite <- valid_feb_29.
  destruct (valid_date yv 2 29); split; auto; split; congruence.
Qed.

Lemma X16_february_29_witness :
  strptime "02.29.2024" = Return (mkDatetime 2024 2 29 0 0 0 0 None) /\
  strptime "02.29.1900" = Raise ValueError.
Proof.
  split.
  - apply (X16_february_29 "2024" 2024); [split; reflexivity|reflexivity|].
    repeat split; try lia. left. discriminate.
  - destruct (X16_february_29 "1900" 1900) as [H1 [H2|H2]];
      [split; reflexivity|reflexivity| |exact H2].
    apply H1 in H2. destruct H2 as (_ & _ & [H|H]);
      [now destruct H|discriminate H].
Defined.

(** ** The failure report *)

Lemma no_space_uint d : no_space (NilEmpty.string_of_uint d) = true.
Proof. induction d; simpl; auto. Qed.

Lemma no_space_str_of_int z : no_space (str_of_int z) = true.
Proof.
  unfold str_of_int, NilZero.string_of_int, NilZero.string_of_uint.
  destruct (Z.to_int z) as [d|d]; destruct d; simpl; auto;
    apply no_space_uint.
Qed.

Lemma str_of_int_inj z1 z2 : str_of_int z1 = str_of_int z2 -> z1 = z2.
Proof.
  unfold str_of_int. intros H.
  assert (Hn : forall z, Z.to_int z <> Pos Nil /\ Z.to_int z <> Neg Nil).
  { intros [|p|p]; simpl; split; try discriminate; intros [= E];
      now apply (DecimalPos.Unsigned.to_uint_nonnil p). }
  apply DecimalZ.to_int_inj.
  assert (E : Some (Z.to_int z1) = Some (Z.to_int z2)).
  { rewrite <- (NilZero.isi (Z.to_int z1)) by apply Hn.
    rewrite <- (NilZero.isi (Z.to_int z2)) by apply Hn.
    now rewrite H. }
  now injection E.
Qed.

Lemma split_at_first_space a : forall b x y,
  no_space a = true -> no_space b = true ->
  a ++ " " ++ x = b ++ " " ++ y -> a = b /\ x = y.
Proof.
  unfold no_space.
  induction a as [|c a IH]; intros [|c' b] x y Ha Hb H; simpl in *.
  - injection H as ->. auto.
  - injection H as <- _. discriminate Hb.
  - injection H as -> _. discriminate Ha.
  - injection H as -> H. apply andb_true_iff in Ha, Hb.
    destruct (IH b x y (proj2 Ha) (proj2 Hb) H) as [-> ->]. auto.
Qed.

(** X17. The failure report can be read back: two responses with the same
    report have the same status code and the same reason phrase (the code is
    what stands before the first space, the reason what follows it). *)
Theorem X17_resp_report_injective :
  forall r1 r2 : Response,
    resp_report r1 = resp_report r2 ->
    status_code r1 = status_code r2 /\ reason r1 = reason r2.
Proof.
  intros r1 r2 H. unfold resp_report in H.
  apply split_at_first_space in H; try apply no_space_str_of_int.
  destruct H as [H1 H2]. split; [now apply str_of_int_inj|assumption].
Qed.

Lemma X17_resp_report_injective_witness :
  status_code resp_503 = status_code (mkResponse 503 "Service Unavailable"
                                        (page [row_A])).
Proof.
  exact (proj1 (X17_resp_report_injective resp_503
                  (mkResponse 503 "Service Unavailable" (page [row_A]))
                  eq_refl)).
Defined.
